(** * flying_emu: the polling loop of [src/flying_emu/__init__.py]

    A shallow embedding of [run] (and of the exit path of [main]).  The two
    collaborators, the [emu_power] device driver and the [paho] MQTT client,
    are external: the driver's answers and the broker's behaviour are inputs
    of the model (an [Env]), every call the program makes on them is recorded
    as an [Event] in a trace.  The reading conversion
    [Decimal(raw) * multiplier / divisor] is embedded together with the parts
    of Python's [decimal] module it executes. *)

From Stdlib Require Import ZArith Lia Bool List String.
Import ListNotations.

Local Open Scope Z_scope.

(** ** Python's [decimal] module, default context *)

Module PyDecimal.

(** A finite [Decimal]: [(-1)^sign * int * 10^exp], [int >= 0]
    ([_dec_from_triple(sign, str(int), exp)]). *)
Record Dec := mkDec { dsign : bool; dint : Z; dexp : Z }.

(** The exceptions the default context traps. *)
Inductive Signal := Overflow | DivisionByZero | DivisionUndefined.

(** [decimal.DefaultContext]: prec=28, rounding=ROUND_HALF_EVEN,
    Emax=999999, Emin=-999999, clamp=0. *)
Definition prec : Z := 28.
Definition Emax : Z := 999999.
Definition Emin : Z := -999999.
Definition Etiny : Z := Emin - prec + 1.
Definition Etop : Z := Emax - prec + 1.

(** [len(str(n))] for [n >= 0]. *)
Fixpoint ndigits_aux (fuel : nat) (n : Z) : Z :=
  match fuel with
  | O => 1
  | S f => if n <? 10 then 1 else 1 + ndigits_aux f (n / 10)
  end.

Definition ndigits (n : Z) : Z := ndigits_aux (S (Z.to_nat (Z.log2 n))) n.

(** [Decimal(n)] for a Python [int] [n]. *)
Definition of_int (n : Z) : Dec := mkDec (n <? 0) (Z.abs n) 0.

(** [_round_half_even] followed by the truncation [self._int[:digits]] in
    [_fix]: keep the [digits] leading digits of [c], rounding the dropped
    ones half-to-even.  Returns the kept coefficient and whether it was
    incremented ([changed > 0]). *)
Definition round_half_even (c digits : Z) : Z * bool :=
  let drop := ndigits c - digits in
  let q := c / 10 ^ drop in
  let r := c mod 10 ^ drop in
  let half := 5 * 10 ^ (drop - 1) in
  let up := (half <? r) || ((r =? half) && Z.odd q) in
  (if up then q + 1 else q, up).

(** [Decimal._fix(context)] for a finite number. *)
Definition fix_dec (d : Dec) : Signal + Dec :=
  let '(mkDec sign c e) := d in
  if c =? 0 then
    inr (mkDec sign 0 (Z.min (Z.max e Etiny) Emax))
  else
    let exp_min := ndigits c + e - prec in
    if Etop <? exp_min then inl Overflow
    else
      let exp_min := if exp_min <? Etiny then Etiny else exp_min in
      if e <? exp_min then
        let digits := ndigits c + e - exp_min in
        let '(c, digits) := if digits <? 0 then (1, 0) else (c, digits) in
        let '(coeff, changed) := round_half_even c digits in
        let '(coeff, exp_min) :=
          if changed && (prec <? ndigits coeff) then (coeff / 10, exp_min + 1)
          else (coeff, exp_min) in
        if Etop <? exp_min then inl Overflow
        else inr (mkDec sign coeff exp_min)
      else inr d.

(** [Decimal.__mul__] with an [int] operand: the exact product, then
    [_fix]. *)
Definition mul (a : Dec) (n : Z) : Signal + Dec :=
  let b := of_int n in
  fix_dec (mkDec (xorb (dsign a) (dsign b)) (dint a * dint b) (dexp a + dexp b)).

(** The [while exp < ideal_exp and coeff % 10 == 0] loop of
    [Decimal.__truediv__]; [fuel] is [ideal_exp - exp]. *)
Fixpoint strip_zeros (fuel : nat) (coeff exp : Z) : Z * Z :=
  match fuel with
  | O => (coeff, exp)
  | S f =>
      if coeff mod 10 =? 0 then strip_zeros f (coeff / 10) (exp + 1)
      else (coeff, exp)
  end.

(** [Decimal.__truediv__] with an [int] divisor. *)
Definition div (a : Dec) (n : Z) : Signal + Dec :=
  let b := of_int n in
  let sign := xorb (dsign a) (dsign b) in
  if dint b =? 0 then
    if dint a =? 0 then inl DivisionUndefined else inl DivisionByZero
  else if dint a =? 0 then
    fix_dec (mkDec sign 0 (dexp a - dexp b))
  else
    let shift := ndigits (dint b) - ndigits (dint a) + prec + 1 in
    let exp := dexp a - dexp b - shift in
    let '(coeff, remainder) :=
      if 0 <=? shift then Z.div_eucl (dint a * 10 ^ shift) (dint b)
      else Z.div_eucl (dint a) (dint b * 10 ^ (- shift)) in
    let '(coeff, exp) :=
      if remainder =? 0 then
        let ideal_exp := dexp a - dexp b in
        strip_zeros (Z.to_nat (ideal_exp - exp)) coeff exp
      else ((if coeff mod 5 =? 0 then coeff + 1 else coeff), exp) in
    fix_dec (mkDec sign coeff exp).

(** The signed coefficient of a decimal. *)
Definition signed_int (d : Dec) : Z := if dsign d then - dint d else dint d.

(** [d] is exactly the rational [p / q]. *)
Definition represents (d : Dec) (p q : Z) : Prop :=
  signed_int d * 10 ^ Z.max (dexp d) 0 * q = p * 10 ^ Z.max (- dexp d) 0.

End PyDecimal.

Import PyDecimal.

(** Line 167 / 184: [Decimal(raw) * multiplier / divisor]. *)
Definition convert (raw multiplier divisor : Z) : Signal + Dec :=
  match mul (of_int raw) multiplier with
  | inl s => inl s
  | inr p => div p divisor
  end.

(** ** Data the program handles *)

(** The options [run] reads from [config.ini]. *)
Record Config := mkConfig {
  emu_serial : string;
  emu_timeout_s : Z;
  mqtt_hostname : string;
  mqtt_port : Z;
  mqtt_client_id : string;
  mqtt_discovery_prefix : string;
  general_interval_s : Z }.

(** The [emu_power] response objects, with the fields [run] reads. *)
Record DeviceInfo := mkDeviceInfo {
  manufacturer : string;
  model_id : string;
  fw_version : string;
  device_mac : string }.

Record CurrentSummationDelivered := mkCurrentSummationDelivered {
  cs_timestamp : option string;
  summation_delivered : Z;
  cs_multiplier : Z;
  cs_divisor : Z }.

Record InstantaneousDemand := mkInstantaneousDemand {
  meter_mac : string;
  id_timestamp : option string;
  demand : Z;
  id_multiplier : Z;
  id_divisor : Z }.

#[local] Set Warnings "-register-all".

(** The JSON documents handed to [json.dumps]; [JFloat d] is
    [float(d)] of a [Decimal]. *)
Inductive json :=
| JStr (s : string)
| JFloat (d : Dec)
| JList (l : list json)
| JObj (fields : list (string * json)).

Inductive Payload :=
| PStr (s : string)
| PJson (j : json).

(** Calls on the collaborators, in the order the program makes them. *)
Inductive Event :=
| EvStartSerial (port : string) (result : bool)
| EvStopSerial
| EvSetScheduleDefault
| EvGetDeviceInfo
| EvGetInstantaneousDemand
| EvGetCurrentSummation
| EvWillSet (topic : string) (payload : Payload) (retain : bool)
| EvConnect (host : string) (port : Z) (ok : bool)
| EvLoopStart
| EvSetOnConnect
| EvBrokerConnected
| EvPublish (topic : string) (payload : Payload) (retain : bool)
| EvSleep (secs : Z).

(** Exceptions that leave [run]. *)
Inductive Exc :=
| ValueError (msg : string)
| AttributeError
| ConnectionError
| DecimalSignal (s : Signal).

(** The outside world: what the device answers to the [k]-th call of each
    kind, whether the broker accepts the connection, and how many times
    paho's network thread reconnects to the broker while the main thread is
    in the [k]-th loop cycle (it blocks in a device request or a sleep
    there). *)
Record Env := mkEnv {
  start_serial_answer : nat -> bool;
  device_info_answer : option DeviceInfo;
  current_summation_answer : nat -> option CurrentSummationDelivered;
  instantaneous_demand_answer : nat -> option InstantaneousDemand;
  broker_connect_ok : bool;
  broker_reconnects : nat -> nat }.

(** The state threaded through the program: call counters of the driver,
    the loop cycle number, the [on_connect] callback registered on the MQTT
    client (it closes over [mqtt_prefix]), and the trace of calls. *)
Record World := mkWorld {
  n_start : nat;
  n_cs : nat;
  n_id : nat;
  n_cycle : nat;
  on_connect_cb : option string;
  trace : list Event }.

Definition initial_world : World := mkWorld 0 0 0 0 None [].

(** ** A state, error and trace monad *)

Definition M (A : Type) : Type := World -> World * (Exc + A).

Definition ret {A} (a : A) : M A := fun w => (w, inr a).

Definition bind {A B} (c : M A) (k : A -> M B) : M B :=
  fun w => match c w with
           | (w', inl e) => (w', inl e)
           | (w', inr a) => k a w'
           end.

Definition raise {A} (e : Exc) : M A := fun w => (w, inl e).

Notation "x <- c1 ;; c2" := (bind c1 (fun x => c2))
  (at level 61, c1 at next level, right associativity).
Notation "c1 ;; c2" := (bind c1 (fun _ => c2))
  (at level 61, right associativity).

Definition emit (e : Event) : M unit :=
  fun w => (mkWorld (n_start w) (n_cs w) (n_id w) (n_cycle w) (on_connect_cb w)
              (trace w ++ [e]), inr tt).

(** An attribute access [x.field] on a value that may be [None]. *)
Definition attr {A} (o : option A) : M A :=
  match o with Some a => ret a | None => raise AttributeError end.

Definition lift_decimal {A} (r : Signal + A) : M A :=
  match r with inl s => raise (DecimalSignal s) | inr a => ret a end.

Section Program.

Variable cfg : Config.
Variable env : Env.

(** *** The [emu_power.Emu] calls *)

Definition start_serial (port : string) : M bool :=
  fun w =>
    let ok := start_serial_answer env (n_start w) in
    (mkWorld (S (n_start w)) (n_cs w) (n_id w) (n_cycle w) (on_connect_cb w)
       (trace w ++ [EvStartSerial port ok]), inr ok).

Definition stop_serial : M unit := emit EvStopSerial.

Definition set_schedule_default : M unit := emit EvSetScheduleDefault.

Definition get_device_info : M (option DeviceInfo) :=
  emit EvGetDeviceInfo;; ret (device_info_answer env).

Definition get_current_summation_delivered
  : M (option CurrentSummationDelivered) :=
  fun w =>
    (mkWorld (n_start w) (S (n_cs w)) (n_id w) (n_cycle w) (on_connect_cb w)
       (trace w ++ [EvGetCurrentSummation]),
     inr (current_summation_answer env (n_cs w))).

Definition get_instantaneous_demand : M (option InstantaneousDemand) :=
  fun w =>
    (mkWorld (n_start w) (n_cs w) (S (n_id w)) (n_cycle w) (on_connect_cb w)
       (trace w ++ [EvGetInstantaneousDemand]),
     inr (instantaneous_demand_answer env (n_id w))).

Definition sleep (secs : Z) : M unit := emit (EvSleep secs).

(** *** The [paho.mqtt.client.Client] calls *)

Definition will_set (topic : string) (payload : Payload) (retain : bool)
  : M unit := emit (EvWillSet topic payload retain).

(** [client.connect] raises when the broker cannot be reached. *)
Definition connect (host : string) (port : Z) : M unit :=
  emit (EvConnect host port (broker_connect_ok env));;
  if broker_connect_ok env then ret tt else raise ConnectionError.

Definition loop_start : M unit := emit EvLoopStart.

Definition publish (topic : string) (payload : Payload) (retain : bool)
  : M unit := emit (EvPublish topic payload retain).

(** *** Topics and the [on_connect] callback (lines 87, 126-131) *)

Definition mk_prefix (mac : string) : string :=
  (mqtt_discovery_prefix cfg ++ "/sensor/flying_emu-" ++ mac)%string.

Definition availability_topic (prefix : string) : string :=
  (prefix ++ "/availability")%string.
Definition cs_config_topic (prefix : string) : string :=
  (prefix ++ "/current_summation/config")%string.
Definition id_config_topic (prefix : string) : string :=
  (prefix ++ "/instantaneous_demand/config")%string.
Definition cs_state_topic (prefix : string) : string :=
  (prefix ++ "/current_summation/state")%string.
Definition id_state_topic (prefix : string) : string :=
  (prefix ++ "/instantaneous_demand/state")%string.

Definition on_connect (prefix : string) : M unit :=
  publish (availability_topic prefix) (PStr "online") true.

(** [client.on_connect = on_connect]. *)
Definition set_on_connect (prefix : string) : M unit :=
  fun w =>
    (mkWorld (n_start w) (n_cs w) (n_id w) (n_cycle w) (Some prefix)
       (trace w ++ [EvSetOnConnect]), inr tt).

Fixpoint reconnects (n : nat) (cb : option string) : M unit :=
  match n with
  | O => ret tt
  | S n' =>
      emit EvBrokerConnected;;
      (match cb with Some p => on_connect p | None => ret tt end);;
      reconnects n' cb
  end.

(** What paho's network thread does while the main thread is in the
    current loop cycle: each reconnection is followed by the registered
    [on_connect] callback. *)
Definition broker_activity : M unit :=
  fun w =>
    let w1 := mkWorld (n_start w) (n_cs w) (n_id w) (S (n_cycle w))
                (on_connect_cb w) (trace w) in
    reconnects (broker_reconnects env (n_cycle w)) (on_connect_cb w) w1.

(** *** The polling loop (lines 147-201) *)

Definition CLIENT_UNRESPONSIVE_MAX : Z := 3.

(** Python truthiness of the [timestamp] attribute. *)
Definition truthy (o : option string) : bool :=
  match o with None => false | Some s => negb (String.eqb s "") end.

(** [not response or not response.timestamp] fails: the genuine answer. *)
Definition genuine_cs (r : option CurrentSummationDelivered)
  : option CurrentSummationDelivered :=
  match r with
  | Some a => if truthy (cs_timestamp a) then Some a else None
  | None => None
  end.

Definition genuine_id (r : option InstantaneousDemand)
  : option InstantaneousDemand :=
  match r with
  | Some a => if truthy (id_timestamp a) then Some a else None
  | None => None
  end.

(** The non-response branch, lines 155-163 (and, identically, 172-180),
    ending in [continue]; it returns the new [emu_unresponsive].  The
    result of [start_serial] is not looked at. *)
Definition handle_nonresponse (emu_unresponsive : Z) : M Z :=
  let emu_unresponsive := emu_unresponsive + 1 in
  if CLIENT_UNRESPONSIVE_MAX <? emu_unresponsive then
    stop_serial;;
    _ <- start_serial (emu_serial cfg);;
    ret 0
  else
    sleep (general_interval_s cfg);;
    ret emu_unresponsive.

(** The body of [while True:] (lines 151-201), from the value of
    [emu_unresponsive] at its head to the value at the next head. *)
Definition poll_once (prefix : string) (emu_unresponsive : Z) : M Z :=
  current_summation_response <- get_current_summation_delivered;;
  match genuine_cs current_summation_response with
  | None => handle_nonresponse emu_unresponsive
  | Some csr =>
      let emu_unresponsive := 0 in
      current_summation <- lift_decimal
        (convert (summation_delivered csr) (cs_multiplier csr) (cs_divisor csr));;
      instantaneous_demand_response <- get_instantaneous_demand;;
      match genuine_id instantaneous_demand_response with
      | None => handle_nonresponse emu_unresponsive
      | Some idr =>
          let emu_unresponsive := 0 in
          instantaneous_demand <- lift_decimal
            (convert (demand idr) (id_multiplier idr) (id_divisor idr));;
          publish (cs_state_topic prefix)
            (PJson (JObj [("reading"%string, JFloat current_summation)])) true;;
          publish (id_state_topic prefix)
            (PJson (JObj [("reading"%string, JFloat instantaneous_demand)])) true;;
          sleep (general_interval_s cfg);;
          ret emu_unresponsive
      end
  end.

(** One iteration, with what paho's thread does meanwhile. *)
Definition cycle (prefix : string) (emu_unresponsive : Z) : M Z :=
  broker_activity;;
  poll_once prefix emu_unresponsive.

(** [fuel] iterations of the infinite loop. *)
Fixpoint polling_loop (fuel : nat) (prefix : string) (emu_unresponsive : Z)
  : M Z :=
  match fuel with
  | O => ret emu_unresponsive
  | S f =>
      u <- cycle prefix emu_unresponsive;;
      polling_loop f prefix u
  end.

(** *** The discovery descriptors (lines 77-124) *)

Definition mqtt_device (di : DeviceInfo) : json :=
  JObj [("manufacturer"%string, JStr (manufacturer di));
        ("model"%string, JStr (model_id di));
        ("name"%string, JStr (model_id di));
        ("sw_version"%string, JStr (fw_version di));
        ("identifiers"%string, JList [JStr (device_mac di)])].

Definition current_summation_discovery_config
  (mac prefix : string) (di : DeviceInfo) : json :=
  JObj [("name"%string, JStr ("EMU-2 Current Summation " ++ mac)%string);
        ("unique_id"%string, JStr (mac ++ "_current_summation")%string);
        ("state_topic"%string, JStr (cs_state_topic prefix));
        ("availability_topic"%string, JStr (availability_topic prefix));
        ("device"%string, mqtt_device di);
        ("unit_of_measurement"%string, JStr "kWh");
        ("state_class"%string, JStr "total_increasing");
        ("device_class"%string, JStr "energy");
        ("value_template"%string, JStr "{{ value_json.reading }}")].

Definition instantaneous_demand_discovery_config
  (mac prefix : string) (di : DeviceInfo) : json :=
  JObj [("name"%string, JStr ("EMU-2 Instantaneous Demand " ++ mac)%string);
        ("unique_id"%string, JStr (mac ++ "_instantaneous_demand")%string);
        ("state_topic"%string, JStr (id_state_topic prefix));
        ("availability_topic"%string, JStr (availability_topic prefix));
        ("device"%string, mqtt_device di);
        ("unit_of_measurement"%string, JStr "kW");
        ("state_class"%string, JStr "measurement");
        ("device_class"%string, JStr "power");
        ("value_template"%string, JStr "{{ value_json.reading }}")].

(** *** [run] (lines 52-201), with [fuel] loop iterations *)

(** Lines 53-145: everything before [emu_unresponsive = 0]; returns the
    [mqtt_prefix] the loop publishes under. *)
Definition setup : M string :=
  result <- start_serial (emu_serial cfg);;
  if negb result then raise (ValueError "Failed to initialize device")
  else
    set_schedule_default;;
    device_info <- get_device_info;;
    initial <- get_instantaneous_demand;;
    idr <- attr initial;;
    let mac := meter_mac idr in
    di <- attr device_info;;
    let mqtt_prefix := mk_prefix mac in
    will_set (availability_topic mqtt_prefix) (PStr "offline") true;;
    connect (mqtt_hostname cfg) (mqtt_port cfg);;
    loop_start;;
    on_connect mqtt_prefix;;
    set_on_connect mqtt_prefix;;
    publish (cs_config_topic mqtt_prefix)
      (PJson (current_summation_discovery_config mac mqtt_prefix di)) true;;
    publish (id_config_topic mqtt_prefix)
      (PJson (instantaneous_demand_discovery_config mac mqtt_prefix di)) true;;
    ret mqtt_prefix.

Definition run (fuel : nat) : M Z :=
  mqtt_prefix <- setup;;
  polling_loop fuel mqtt_prefix 0.

End Program.

(** [main] (lines 43-49): an exception out of [run] ends the process with
    [os._exit(1)]; [None] means it is still running. *)
Definition main_exit {A} (r : Exc + A) : option Z :=
  match r with inl _ => Some 1 | inr _ => None end.

(** The whole trace and outcome of a run of [fuel] loop iterations. *)
Definition execute (cfg : Config) (env : Env) (fuel : nat)
  : World * (Exc + Z) :=
  run cfg env fuel initial_world.

(** ** Views and shapes of traces *)

(** The events of the device link: [device_view] keeps the calls on the
    [Emu] driver and the sleeps of the main thread, and drops what is said
    to the broker. *)

Definition is_device_event (e : Event) : bool :=
  match e with
  | EvStartSerial _ _ | EvStopSerial | EvSetScheduleDefault | EvGetDeviceInfo
  | EvGetInstantaneousDemand | EvGetCurrentSummation | EvSleep _ => true
  | _ => false
  end.

Definition device_view (tr : list Event) : list Event :=
  filter is_device_event tr.

Definition emits {A} (P : Event -> Prop) (c : M A) : Prop :=
  forall w, on_connect_cb (fst (c w)) = on_connect_cb w /\
            exists tr, trace (fst (c w)) = trace w ++ tr /\ Forall P tr.

(** The events of the loop body itself (the broker's are apart): driver
    calls, sleeps, and retained publishes to the two state topics. *)
Definition poll_event (p : string) (e : Event) : Prop :=
  match e with
  | EvGetCurrentSummation | EvGetInstantaneousDemand | EvStopSerial
  | EvStartSerial _ _ | EvSleep _ => True
  | EvPublish t _ r => r = true /\ (t = cs_state_topic p \/ t = id_state_topic p)
  | _ => False
  end.

(** The events of the loop part of a run. *)
Definition loop_event (p : string) (e : Event) : Prop :=
  poll_event p e \/ e = EvBrokerConnected \/
  e = EvPublish (availability_topic p) (PStr "online") true.

(** Every reconnection event is directly followed by the retained
    "online" publish of [on_connect]. *)
Inductive paired (p : string) : list Event -> Prop :=
| paired_nil : paired p []
| paired_reconnect tr :
    paired p tr ->
    paired p (EvBrokerConnected ::
              EvPublish (availability_topic p) (PStr "online") true :: tr)
| paired_other e tr : e <> EvBrokerConnected -> paired p tr -> paired p (e :: tr).

(** The prefix a run publishes under, and whether its startup succeeds. *)
Definition run_prefix (cfg : Config) (env : Env) : string :=
  mk_prefix cfg (match instantaneous_demand_answer env 0 with
                 | Some r => meter_mac r
                 | None => ""%string
                 end).

Definition startup_ok (env : Env) : bool :=
  start_serial_answer env 0 &&
  match device_info_answer env with Some _ => true | None => false end &&
  match instantaneous_demand_answer env 0 with Some _ => true | None => false end &&
  broker_connect_ok env.

(** Lines 62-98, 99-134 and 136-145 of a successful startup. *)
Definition setup_head (cfg : Config) (p : string) : list Event :=
  [EvStartSerial (emu_serial cfg) true; EvSetScheduleDefault; EvGetDeviceInfo;
   EvGetInstantaneousDemand; EvWillSet (availability_topic p) (PStr "offline") true].

Definition setup_mid (cfg : Config) (p : string) : list Event :=
  [EvConnect (mqtt_hostname cfg) (mqtt_port cfg) true; EvLoopStart;
   EvPublish (availability_topic p) (PStr "online") true; EvSetOnConnect].

Definition setup_tail (mac p : string) (di : DeviceInfo) : list Event :=
  [EvPublish (cs_config_topic p) (PJson (current_summation_discovery_config mac p di)) true;
   EvPublish (id_config_topic p) (PJson (instantaneous_demand_discovery_config mac p di)) true].

Definition topic_is (t : string) (e : Event) : bool :=
  match e with EvPublish t' _ _ => String.eqb t t' | _ => false end.

Definition is_config_publish (p : string) (e : Event) : bool :=
  topic_is (cs_config_topic p) e || topic_is (id_config_topic p) e.

Definition is_state_publish (p : string) (e : Event) : bool :=
  topic_is (cs_state_topic p) e || topic_is (id_state_topic p) e.

Definition is_connect (e : Event) : Prop :=
  match e with EvConnect _ _ _ => True | _ => False end.

(** ** Scenarios *)

Definition cfg0 : Config :=
  mkConfig "/dev/ttyACM0" 5 "localhost" 1883 "flying_emu" "homeassistant" 10.

Definition di0 : DeviceInfo :=
  mkDeviceInfo "Rainforest Automation, Inc." "Z105-2-EMU2-LEDD_JM"
    "1.4.47 (7252)" "0xd8d5b90000001234".

Definition id_ok : InstantaneousDemand :=
  mkInstantaneousDemand "0x00135003001a2b3c" (Some "0x2a0f3c1b"%string) 1234 1 1000.

Definition cs_ok : CurrentSummationDelivered :=
  mkCurrentSummationDelivered (Some "0x2a0f3c1b"%string) 12345 1 1000.

Definition prefix0 : string := mk_prefix cfg0 (meter_mac id_ok).

(** The device is not there at all. *)
Definition env_dead : Env :=
  mkEnv (fun _ => false) None (fun _ => None) (fun _ => None) true (fun _ => O).

(** The device answers the startup calls, then never a CurrentSummation. *)
Definition env_silent : Env :=
  mkEnv (fun _ => true) (Some di0) (fun _ => None) (fun _ => Some id_ok) true
    (fun _ => O).

(** Every CurrentSummation is answered, no InstantaneousDemand after the
    startup one. *)
Definition env_demand_silent : Env :=
  mkEnv (fun _ => true) (Some di0) (fun _ => Some cs_ok)
    (fun k => match k with O => Some id_ok | S _ => None end) true (fun _ => O).

(** As [env_silent], and the serial port cannot be reopened after the
    first time. *)
Definition env_reopen_fails : Env :=
  mkEnv (fun k => match k with O => true | S _ => false end) (Some di0)
    (fun _ => None) (fun _ => Some id_ok) true (fun _ => O).

(** Both readings answered in every cycle, the broker reconnects in
    cycle 1. *)
Definition env_good : Env :=
  mkEnv (fun _ => true) (Some di0) (fun _ => Some cs_ok) (fun _ => Some id_ok) true
    (fun k => match k with 1%nat => 1%nat | _ => O end).

Definition publishes_to (t : string) (tr : list Event) : bool :=
  existsb (fun e => match e with EvPublish t' _ _ => String.eqb t t' | _ => false end) tr.

Definition w_loop0 : World := fst (setup cfg0 env_demand_silent initial_world).

Definition w_silent0 : World := fst (setup cfg0 env_silent initial_world).

(** *** Helpers for the properties of whole runs *)

(** The value under key [k] of a JSON object, as a consumer of the
    descriptor reads it. *)
Definition json_field (k : string) (j : json) : option json :=
  match j with
  | JObj kvs =>
      (fix look (l : list (string * json)) : option json :=
         match l with
         | [] => None
         | (k', v) :: r => if String.eqb k k' then Some v else look r
         end) kvs
  | _ => None
  end.

(** An event whose parameters come from the configuration use the
    configured values. *)
Definition uses_config (cfg : Config) (e : Event) : Prop :=
  match e with
  | EvStartSerial port _ => port = emu_serial cfg
  | EvSleep secs => secs = general_interval_s cfg
  | EvConnect host port _ => host = mqtt_hostname cfg /\ port = mqtt_port cfg
  | _ => True
  end.

(** A publish on a state topic carries [{"reading": v}] where [v] is the
    conversion of a genuine device answer of the matching kind. *)
Definition reading_of_answer (env : Env) (p : string) (e : Event) : Prop :=
  match e with
  | EvPublish t pl _ =>
      (t = cs_state_topic p ->
       exists k r v, genuine_cs (current_summation_answer env k) = Some r /\
         convert (summation_delivered r) (cs_multiplier r) (cs_divisor r) = inr v /\
         pl = PJson (JObj [("reading"%string, JFloat v)])) /\
      (t = id_state_topic p ->
       exists k r v, genuine_id (instantaneous_demand_answer env k) = Some r /\
         convert (demand r) (id_multiplier r) (id_divisor r) = inr v /\
         pl = PJson (JObj [("reading"%string, JFloat v)]))
  | _ => True
  end.

(** A publish or a last will goes to a topic under the prefix [p]. *)
Definition under_prefix (p : string) (e : Event) : Prop :=
  match e with
  | EvPublish t _ _ | EvWillSet t _ _ => exists sfx, t = (p ++ sfx)%string
  | _ => True
  end.

(** The startup answers are there, no DeviceInfo. *)
Definition env_no_info : Env :=
  mkEnv (fun _ => true) None (fun _ => Some cs_ok) (fun _ => Some id_ok) true
    (fun _ => O).

(** The device answers, the broker refuses the connection. *)
Definition env_broker_down : Env :=
  mkEnv (fun _ => true) (Some di0) (fun _ => Some cs_ok) (fun _ => Some id_ok) false
    (fun _ => O).

(** The first CurrentSummation request goes unanswered; the answers after
    it carry the divisor 0. *)
Definition env_zero_divisor : Env :=
  mkEnv (fun _ => true) (Some di0)
    (fun k => match k with
              | O => None
              | S _ => Some (mkCurrentSummationDelivered (Some "0x2a0f3c1b"%string) 12345 1 0)
              end)
    (fun _ => Some id_ok) true (fun _ => O).

(** ** Evaluation lemmas *)

Definition broker_events (n : nat) (cb : option string) : list Event :=
  List.concat (repeat (EvBrokerConnected ::
                  match cb with
                  | Some p => [EvPublish (availability_topic p) (PStr "online") true]
                  | None => []
                  end) n).

Lemma reconnects_spec (n : nat) (cb : option string) (w : World) :
  reconnects n cb w =
  (mkWorld (n_start w) (n_cs w) (n_id w) (n_cycle w) (on_connect_cb w)
     (trace w ++ broker_events n cb), inr tt).
Proof.
  revert w; induction n as [|n IH]; intro w.
  - destruct w; cbn. now rewrite app_nil_r.
  - destruct cb as [p|]; cbn; rewrite IH; cbn; now rewrite <- !app_assoc.
Qed.

Lemma broker_activity_spec (env : Env) (w : World) :
  broker_activity env w =
  (mkWorld (n_start w) (n_cs w) (n_id w) (S (n_cycle w)) (on_connect_cb w)
     (trace w ++ broker_events (broker_reconnects env (n_cycle w)) (on_connect_cb w)),
   inr tt).
Proof. unfold broker_activity. now rewrite reconnects_spec. Qed.

Lemma handle_nonresponse_spec (cfg : Config) (env : Env) (u : Z) (w : World) :
  handle_nonresponse cfg env u w =
  if CLIENT_UNRESPONSIVE_MAX <? u + 1 then
    (mkWorld (S (n_start w)) (n_cs w) (n_id w) (n_cycle w) (on_connect_cb w)
       (trace w ++ [EvStopSerial;
                    EvStartSerial (emu_serial cfg) (start_serial_answer env (n_start w))]),
     inr 0)
  else
    (mkWorld (n_start w) (n_cs w) (n_id w) (n_cycle w) (on_connect_cb w)
       (trace w ++ [EvSleep (general_interval_s cfg)]), inr (u + 1)).
Proof.
  unfold handle_nonresponse.
  destruct (CLIENT_UNRESPONSIVE_MAX <? u + 1); cbn; [|reflexivity].
  now rewrite <- app_assoc.
Qed.

Lemma poll_once_nonresponse (cfg : Config) (env : Env) (p : string) (u : Z)
  (w : World) :
  genuine_cs (current_summation_answer env (n_cs w)) = None ->
  poll_once cfg env p u w =
  handle_nonresponse cfg env u
    (mkWorld (n_start w) (S (n_cs w)) (n_id w) (n_cycle w) (on_connect_cb w)
       (trace w ++ [EvGetCurrentSummation])).
Proof. intro H. unfold poll_once, bind at 1. cbn. now rewrite H. Qed.

Lemma cycle_unfold (cfg : Config) (env : Env) (p : string) (u : Z) (w : World) :
  cycle cfg env p u w =
  poll_once cfg env p u
    (mkWorld (n_start w) (n_cs w) (n_id w) (S (n_cycle w)) (on_connect_cb w)
       (trace w ++ broker_events (broker_reconnects env (n_cycle w)) (on_connect_cb w))).
Proof. unfold cycle, bind at 1. now rewrite broker_activity_spec. Qed.

Lemma device_view_app (a b : list Event) :
  device_view (a ++ b) = device_view a ++ device_view b.
Proof. apply filter_app. Qed.

Lemma device_view_broker (n : nat) (cb : option string) :
  device_view (broker_events n cb) = [].
Proof.
  induction n as [|n IH]; [reflexivity|].
  unfold broker_events in *. cbn [repeat List.concat].
  rewrite device_view_app, IH. now destruct cb.
Qed.

(** Lines 152-164 run [N] times on non-responses, from counter [u]. *)
Lemma loop_nonresponses (cfg : Config) (env : Env) (p : string) :
  forall (N : nat) (u : Z) (w : World),
  0 <= u -> u + Z.of_nat N <= CLIENT_UNRESPONSIVE_MAX ->
  (forall i, (i < N)%nat ->
     genuine_cs (current_summation_answer env (n_cs w + i)) = None) ->
  exists w' tr,
    polling_loop cfg env N p u w = (w', inr (u + Z.of_nat N)) /\
    trace w' = trace w ++ tr /\
    n_start w' = n_start w /\ n_cs w' = (n_cs w + N)%nat /\
    device_view tr =
      List.concat (repeat [EvGetCurrentSummation; EvSleep (general_interval_s cfg)] N).
Proof.
  induction N as [|N IH]; intros u w Hu HN Hans.
  - exists w, []. cbn. rewrite Z.add_0_r, app_nil_r, Nat.add_0_r.
    now repeat split.
  - cbn [polling_loop]. unfold bind at 1.
    rewrite cycle_unfold, poll_once_nonresponse
      by (cbn; rewrite <- (Nat.add_0_r (n_cs w)); apply Hans; lia).
    rewrite handle_nonresponse_spec.
    cbn [n_start n_cs n_id n_cycle on_connect_cb trace].
    replace (CLIENT_UNRESPONSIVE_MAX <? u + 1) with false
      by (symmetry; apply Z.ltb_ge; lia).
    destruct (IH (u + 1)
                (mkWorld (n_start w) (S (n_cs w)) (n_id w) (S (n_cycle w))
                   (on_connect_cb w)
                   (((trace w ++ broker_events (broker_reconnects env (n_cycle w))
                        (on_connect_cb w)) ++ [EvGetCurrentSummation]) ++
                    [EvSleep (general_interval_s cfg)])))
      as (w' & tr & Hrun & Htr & Hst & Hcs & Hdv); [lia | lia | |].
    { intros i Hi. cbn. replace (S (n_cs w + i)) with (n_cs w + S i)%nat by lia.
      apply Hans. lia. }
    exists w'.
    eexists. rewrite Hrun. split; [f_equal; f_equal; lia|].
    split; [rewrite Htr; cbn; now rewrite <- !app_assoc|].
    split; [exact Hst|]. split; [rewrite Hcs; cbn; lia|].
    rewrite !device_view_app, device_view_broker, Hdv. reflexivity.
Qed.

Lemma bind_inr {A B} (m : M A) (k : A -> M B) (w w1 : World) (a : A) :
  m w = (w1, inr a) -> bind m k w = k a w1.
Proof. intro H. unfold bind. now rewrite H. Qed.

Lemma bind_assoc {A B C} (c : M A) (f : A -> M B) (g : B -> M C) (w : World) :
  bind (bind c f) g w = bind c (fun a => bind (f a) g) w.
Proof. unfold bind. destruct (c w) as [w' [e|a]]; reflexivity. Qed.

Lemma bind_ext {A B} (c : M A) (k k' : A -> M B) (w : World) :
  (forall a w', k a w' = k' a w') -> bind c k w = bind c k' w.
Proof. intro H. unfold bind. destruct (c w) as [w' [e|a]]; auto. Qed.

(** ** Which events a computation appends *)

Section Emits.

Variable P : Event -> Prop.

Lemma emits_ret {A} (a : A) : emits P (ret a).
Proof. intro w. split; [reflexivity|]. exists []. now rewrite app_nil_r. Qed.

Lemma emits_raise {A} (e : Exc) : emits P (@raise A e).
Proof. intro w. split; [reflexivity|]. exists []. now rewrite app_nil_r. Qed.

Lemma emits_emit (e : Event) : P e -> emits P (emit e).
Proof. intros He w. split; [reflexivity|]. exists [e]. auto. Qed.

Lemma emits_lift_decimal {A} (r : Signal + A) : emits P (lift_decimal r).
Proof. destruct r; [apply emits_raise | apply emits_ret]. Qed.

Lemma emits_bind {A B} (c : M A) (k : A -> M B) :
  emits P c -> (forall a, emits P (k a)) -> emits P (bind c k).
Proof.
  intros Hc Hk w. unfold bind.
  destruct (Hc w) as (Hcb & tr & Htr & Hf).
  destruct (c w) as [w1 [e|a]]; cbn in *; [now split; [|exists tr]|].
  destruct (Hk a w1) as (Hcb' & tr' & Htr' & Hf').
  split; [congruence|]. exists (tr ++ tr').
  rewrite Htr', Htr, app_assoc. split; [reflexivity|]. now apply Forall_app.
Qed.

Lemma emits_start_serial (env : Env) (port : string) :
  (forall b, P (EvStartSerial port b)) -> emits P (start_serial env port).
Proof. intros H w. split; [reflexivity|]. eexists. split; [reflexivity|]. auto. Qed.

Lemma emits_get_cs (env : Env) :
  P EvGetCurrentSummation -> emits P (get_current_summation_delivered env).
Proof. intros H w. split; [reflexivity|]. eexists. split; [reflexivity|]. auto. Qed.

Lemma emits_get_id (env : Env) :
  P EvGetInstantaneousDemand -> emits P (get_instantaneous_demand env).
Proof. intros H w. split; [reflexivity|]. eexists. split; [reflexivity|]. auto. Qed.

Lemma emits_after {A} (c : M A) (w : World) (T : list Event) (e : Event)
  (cb : option string) :
  emits P c -> trace w = T ++ [e] -> on_connect_cb w = cb ->
  on_connect_cb (fst (c w)) = cb /\
  exists tr, trace (fst (c w)) = T ++ e :: tr /\ Forall P tr.
Proof.
  intros Hc Hw Hcb0. destruct (Hc w) as (Hcb & tr & Htr & Hf).
  split; [congruence|]. exists tr. rewrite Htr, Hw, <- app_assoc. now split.
Qed.

Lemma emits_weaken {A} (Q : Event -> Prop) (c : M A) :
  (forall e, P e -> Q e) -> emits P c -> emits Q c.
Proof.
  intros HPQ Hc w. destruct (Hc w) as (Hcb & tr & Htr & Hf).
  split; [exact Hcb|]. exists tr. split; [exact Htr|].
  eapply Forall_impl; eassumption.
Qed.

End Emits.

Ltac solve_emits :=
  repeat match goal with
  | |- emits _ (bind _ _) => apply emits_bind; [|intros ?]
  | |- emits _ (match ?x with _ => _ end) => destruct x
  | |- emits _ (ret _) => apply emits_ret
  | |- emits _ (raise _) => apply emits_raise
  | |- emits _ (lift_decimal _) => apply emits_lift_decimal
  | |- emits _ (emit _) => apply emits_emit
  | |- emits _ (publish _ _ _) => apply emits_emit
  | |- emits _ (sleep _) => apply emits_emit
  | |- emits _ (stop_serial) => apply emits_emit
  | |- emits _ (start_serial _ _) => apply emits_start_serial; intros ?
  | |- emits _ (get_instantaneous_demand _) => apply emits_get_id
  | |- emits _ (get_current_summation_delivered _) => apply emits_get_cs
  | |- emits _ (handle_nonresponse _ _ _) => unfold handle_nonresponse
  | |- emits _ (if ?b then _ else _) => destruct b
  | |- emits _ (let _ := _ in _) => cbv zeta
  end.

Lemma poll_once_trace (cfg : Config) (env : Env) (p : string) (u : Z) (w : World) :
  on_connect_cb (fst (poll_once cfg env p u w)) = on_connect_cb w /\
  exists tr, trace (fst (poll_once cfg env p u w)) =
             trace w ++ EvGetCurrentSummation :: tr /\ Forall (poll_event p) tr.
Proof.
  unfold poll_once. erewrite bind_inr by reflexivity.
  eapply emits_after; [|reflexivity|reflexivity].
  solve_emits; cbn; auto.
Qed.

Lemma cycle_trace (cfg : Config) (env : Env) (p : string) (u : Z) (w : World) :
  exists tr, trace (fst (cycle cfg env p u w)) = trace w ++ tr /\
  exists rest, device_view tr = EvGetCurrentSummation :: rest.
Proof.
  rewrite cycle_unfold.
  match goal with |- context [poll_once cfg env p u ?w2] =>
    destruct (poll_once_trace cfg env p u w2) as (_ & tr & Htr & _) end.
  rewrite Htr. cbn [trace].
  eexists. rewrite <- app_assoc. split; [reflexivity|].
  rewrite device_view_app, device_view_broker. cbn. eauto.
Qed.

Lemma polling_loop_snoc (cfg : Config) (env : Env) (p : string) :
  forall n u w,
  polling_loop cfg env (S n) p u w =
  bind (polling_loop cfg env n p u) (cycle cfg env p) w.
Proof.
  induction n as [|n IH]; intros u w.
  - cbn [polling_loop]. unfold bind, ret.
    destruct (cycle cfg env p u w) as [w' [e|a]]; reflexivity.
  - change (polling_loop cfg env (S (S n)) p u w)
      with (bind (cycle cfg env p u) (fun v => polling_loop cfg env (S n) p v) w).
    change (polling_loop cfg env (S n) p u)
      with (bind (cycle cfg env p u) (fun v => polling_loop cfg env n p v)).
    rewrite bind_assoc. apply bind_ext. intros v w'. apply IH.
Qed.

Lemma in_concat_repeat {A} (x : A) (l : list A) (n : nat) :
  In x (List.concat (repeat l n)) -> In x l.
Proof.
  induction n as [|n IH]; cbn; [tauto|].
  intro H. apply in_app_or in H. tauto.
Qed.

(** ** Claims *)

(** C10. If the first [start_serial] of the device fails (returns a falsy
    result), [run] raises before the loop and before the MQTT client is
    created: the trace is that one call, nothing is published, and [main]
    exits with status 1. *)
Theorem startup_failure_exits (cfg : Config) (env : Env) (fuel : nat) :
  start_serial_answer env 0 = false ->
  execute cfg env fuel =
    (mkWorld 1 0 0 0 None [EvStartSerial (emu_serial cfg) false],
     inl (ValueError "Failed to initialize device")) /\
  main_exit (snd (execute cfg env fuel)) = Some 1 /\
  (forall t pl r, ~ In (EvPublish t pl r) (trace (fst (execute cfg env fuel)))) /\
  ~ In EvGetCurrentSummation (trace (fst (execute cfg env fuel))).
Proof.
  intro H.
  assert (E : execute cfg env fuel =
    (mkWorld 1 0 0 0 None [EvStartSerial (emu_serial cfg) false],
     inl (ValueError "Failed to initialize device"))).
  { unfold execute, run, setup. unfold bind at 1 2. cbn. now rewrite H. }
  rewrite E. cbn. repeat split; intros; intros [Hx|[]]; discriminate.
Qed.

(** C4. From [emu_unresponsive = 0], [N <= 3] consecutive non-responses
    trigger no reconnect, one sleep of the configured interval after each
    (no InstantaneousDemand request), and leave the counter at [N]. *)
Theorem few_nonresponses_back_off (cfg : Config) (env : Env) (p : string)
  (N : nat) (w : World) :
  (N <= 3)%nat ->
  (forall i, (i < N)%nat ->
     genuine_cs (current_summation_answer env (n_cs w + i)) = None) ->
  exists w' tr,
    polling_loop cfg env N p 0 w = (w', inr (Z.of_nat N)) /\
    trace w' = trace w ++ tr /\
    device_view tr =
      List.concat (repeat [EvGetCurrentSummation; EvSleep (general_interval_s cfg)] N) /\
    ~ In EvStopSerial tr.
Proof.
  intros HN Hans.
  destruct (loop_nonresponses cfg env p N 0 w) as (w' & tr & Hrun & Htr & _ & _ & Hdv);
    [lia | unfold CLIENT_UNRESPONSIVE_MAX; lia | exact Hans |].
  exists w', tr. rewrite Hrun. repeat split; [exact Htr | exact Hdv |].
  intro Hin.
  assert (Hd : In EvStopSerial (device_view tr))
    by (apply filter_In; now split).
  rewrite Hdv in Hd. apply in_concat_repeat in Hd.
  cbn in Hd. intuition discriminate.
Qed.

(** C3. From [emu_unresponsive = 0], at the fourth consecutive
    non-response (the counter exceeds 3) the device link is closed and
    reopened once, the counter is 0, and the next cycle's first device call
    is the next CurrentSummation request, with no sleep before it. *)
Theorem fourth_nonresponse_resets (cfg : Config) (env : Env) (p : string)
  (w : World) :
  (forall i, (i < 4)%nat ->
     genuine_cs (current_summation_answer env (n_cs w + i)) = None) ->
  exists w4 tr,
    polling_loop cfg env 4 p 0 w = (w4, inr 0) /\
    trace w4 = trace w ++ tr /\
    device_view tr =
      [EvGetCurrentSummation; EvSleep (general_interval_s cfg);
       EvGetCurrentSummation; EvSleep (general_interval_s cfg);
       EvGetCurrentSummation; EvSleep (general_interval_s cfg);
       EvGetCurrentSummation; EvStopSerial;
       EvStartSerial (emu_serial cfg) (start_serial_answer env (n_start w))] /\
    (forall u, exists tr',
       trace (fst (cycle cfg env p u w4)) = trace w4 ++ tr' /\
       exists rest, device_view tr' = EvGetCurrentSummation :: rest).
Proof.
  intros Hans.
  rewrite polling_loop_snoc.
  destruct (loop_nonresponses cfg env p 3 0 w)
    as (w3 & tr3 & Hrun & Htr & Hst & Hcs & Hdv);
    [lia | unfold CLIENT_UNRESPONSIVE_MAX; lia | intros i Hi; apply Hans; lia |].
  erewrite bind_inr by exact Hrun.
  rewrite cycle_unfold, poll_once_nonresponse
    by (cbn; rewrite Hcs; apply Hans; lia).
  rewrite handle_nonresponse_spec. cbn [n_start n_cs n_id n_cycle on_connect_cb trace].
  change (CLIENT_UNRESPONSIVE_MAX <? 0 + Z.of_nat 3 + 1) with true. cbv iota.
  do 2 eexists. split; [reflexivity|]. split.
  { rewrite Htr, <- !app_assoc. reflexivity. }
  split.
  - rewrite !device_view_app, device_view_broker, Hdv, Hst. reflexivity.
  - intro u. apply cycle_trace.
Qed.

(** A cycle whose CurrentSummation answer is genuine and whose
    InstantaneousDemand answer is not (lines 165-181). *)
Lemma cycle_demand_silent (cfg : Config) (env : Env) (p : string) (u : Z)
  (w : World) (r : CurrentSummationDelivered) (v : Dec) :
  genuine_cs (current_summation_answer env (n_cs w)) = Some r ->
  convert (summation_delivered r) (cs_multiplier r) (cs_divisor r) = inr v ->
  genuine_id (instantaneous_demand_answer env (n_id w)) = None ->
  cycle cfg env p u w =
  (mkWorld (n_start w) (S (n_cs w)) (S (n_id w)) (S (n_cycle w)) (on_connect_cb w)
     (trace w ++ broker_events (broker_reconnects env (n_cycle w)) (on_connect_cb w)
        ++ [EvGetCurrentSummation; EvGetInstantaneousDemand;
            EvSleep (general_interval_s cfg)]),
   inr 1).
Proof.
  intros H1 Hc H2.
  rewrite cycle_unfold. unfold poll_once.
  erewrite bind_inr by reflexivity. cbv beta. cbn [n_cs]. rewrite H1.
  cbv iota beta. rewrite Hc.
  erewrite bind_inr by reflexivity. cbv beta.
  erewrite bind_inr by reflexivity. cbv beta. cbn [n_id]. rewrite H2.
  rewrite handle_nonresponse_spec. cbn.
  now rewrite <- !app_assoc.
Qed.

(** A cycle where both answers are genuine (lines 165-201). *)
Lemma cycle_both_genuine (cfg : Config) (env : Env) (p : string) (u : Z)
  (w : World) (r1 : CurrentSummationDelivered) (v1 : Dec)
  (r2 : InstantaneousDemand) (v2 : Dec) :
  genuine_cs (current_summation_answer env (n_cs w)) = Some r1 ->
  convert (summation_delivered r1) (cs_multiplier r1) (cs_divisor r1) = inr v1 ->
  genuine_id (instantaneous_demand_answer env (n_id w)) = Some r2 ->
  convert (demand r2) (id_multiplier r2) (id_divisor r2) = inr v2 ->
  cycle cfg env p u w =
  (mkWorld (n_start w) (S (n_cs w)) (S (n_id w)) (S (n_cycle w)) (on_connect_cb w)
     (trace w ++ broker_events (broker_reconnects env (n_cycle w)) (on_connect_cb w)
        ++ [EvGetCurrentSummation; EvGetInstantaneousDemand;
            EvPublish (cs_state_topic p) (PJson (JObj [("reading"%string, JFloat v1)])) true;
            EvPublish (id_state_topic p) (PJson (JObj [("reading"%string, JFloat v2)])) true;
            EvSleep (general_interval_s cfg)]),
   inr 0).
Proof.
  intros H1 Hc1 H2 Hc2.
  rewrite cycle_unfold. unfold poll_once.
  erewrite bind_inr by reflexivity. cbv beta. cbn [n_cs]. rewrite H1.
  cbv iota beta. rewrite Hc1.
  erewrite bind_inr by reflexivity. cbv beta.
  erewrite bind_inr by reflexivity. cbv beta. cbn [n_id]. rewrite H2.
  cbv iota beta. rewrite Hc2. cbn.
  now rewrite <- !app_assoc.
Qed.

Lemma bind_inr_inv {A B} (c : M A) (k : A -> M B) (w : World) (v : B) :
  snd (bind c k w) = inr v ->
  exists w1 a, c w = (w1, inr a) /\ snd (k a w1) = inr v.
Proof.
  unfold bind. destruct (c w) as [w1 [e|a]]; cbn; [discriminate|].
  intro H. eauto.
Qed.

Lemma handle_nonresponse_result (cfg : Config) (env : Env) (u : Z) (w : World) :
  snd (handle_nonresponse cfg env u w) =
  inr (if CLIENT_UNRESPONSIVE_MAX <? u + 1 then 0 else u + 1).
Proof.
  rewrite handle_nonresponse_spec.
  destruct (CLIENT_UNRESPONSIVE_MAX <? u + 1); reflexivity.
Qed.

(** The value at the head of the next cycle is [0], [1], or [u + 1] when
    that does not exceed the threshold. *)
Lemma cycle_result (cfg : Config) (env : Env) (p : string) (u : Z) (w : World)
  (v : Z) :
  snd (cycle cfg env p u w) = inr v ->
  v = 0 \/ v = 1 \/ v = (if CLIENT_UNRESPONSIVE_MAX <? u + 1 then 0 else u + 1).
Proof.
  rewrite cycle_unfold. unfold poll_once.
  erewrite bind_inr by reflexivity. cbv beta.
  destruct (genuine_cs _) as [r|].
  - intro H.
    apply bind_inr_inv in H as (w1 & a & _ & H).
    apply bind_inr_inv in H as (w2 & b & _ & H).
    destruct (genuine_id b) as [r2|].
    + repeat (apply bind_inr_inv in H as (? & ? & _ & H)).
      cbn in H. injection H. auto.
    + rewrite handle_nonresponse_result in H. cbn in H.
      injection H as <-. auto.
  - rewrite handle_nonresponse_result. intro H. injection H as <-. auto.
Qed.

Lemma polling_loop_range (cfg : Config) (env : Env) (p : string) :
  forall n u w v,
  0 <= u <= CLIENT_UNRESPONSIVE_MAX ->
  snd (polling_loop cfg env n p u w) = inr v ->
  0 <= v <= CLIENT_UNRESPONSIVE_MAX.
Proof.
  induction n as [|n IH]; intros u w v Hu H.
  - cbn in H. injection H as <-. exact Hu.
  - cbn [polling_loop] in H.
    apply bind_inr_inv in H as (w1 & a & Hc & H).
    apply (IH a w1 v); [|exact H].
    assert (Ha : snd (cycle cfg env p u w) = inr a) by now rewrite Hc.
    apply cycle_result in Ha. unfold CLIENT_UNRESPONSIVE_MAX in *.
    destruct (3 <? u + 1) eqn:E; [|apply Z.ltb_ge in E]; lia.
Qed.

Lemma loop_demand_silent (cfg : Config) (env : Env) (p : string) :
  forall n u w,
  (forall k, (n_cs w <= k)%nat -> exists r v,
     genuine_cs (current_summation_answer env k) = Some r /\
     convert (summation_delivered r) (cs_multiplier r) (cs_divisor r) = inr v) ->
  (forall k, (n_id w <= k)%nat ->
     genuine_id (instantaneous_demand_answer env k) = None) ->
  exists w' tr,
    polling_loop cfg env n p u w = (w', inr (match n with O => u | S _ => 1 end)) /\
    trace w' = trace w ++ tr /\
    device_view tr =
      List.concat (repeat [EvGetCurrentSummation; EvGetInstantaneousDemand;
                           EvSleep (general_interval_s cfg)] n).
Proof.
  induction n as [|n IH]; intros u w Hcs Hid.
  - exists w, []. now rewrite app_nil_r.
  - destruct (Hcs (n_cs w) (le_n _)) as (r & v & H1 & Hc).
    cbn [polling_loop]. unfold bind at 1.
    rewrite (cycle_demand_silent cfg env p u w r v H1 Hc (Hid _ (le_n _))).
    match goal with |- context [polling_loop cfg env n p 1 ?w1] =>
      destruct (IH 1 w1) as (w' & tr & Hrun & Htr & Hdv) end.
    { intros k Hk. apply Hcs. cbn in Hk. lia. }
    { intros k Hk. apply Hid. cbn in Hk. lia. }
    rewrite Hrun. exists w'. eexists. split.
    { destruct n; reflexivity. }
    split; [rewrite Htr; cbn; now rewrite <- !app_assoc|].
    rewrite !device_view_app, device_view_broker, Hdv. reflexivity.
Qed.

(** C5. A genuine CurrentSummation answer makes the cycle forget the prior
    counter (the whole cycle behaves as from any other value: line 165
    zeroes it); a genuine answer to both requests leaves the counter at 0;
    from the loop's initial 0 the counter at every cycle head lies in
    [[0, 3]], the incremented value in the non-response branch lies in
    [[1, 4]] (within [[0, threshold+1]]), and it is zeroed exactly when it
    exceeds the threshold. *)
Theorem success_resets_counter :
  (forall cfg env p u u' w r,
     genuine_cs (current_summation_answer env (n_cs w)) = Some r ->
     cycle cfg env p u w = cycle cfg env p u' w) /\
  (forall cfg env p u w r1 v1 r2 v2,
     genuine_cs (current_summation_answer env (n_cs w)) = Some r1 ->
     convert (summation_delivered r1) (cs_multiplier r1) (cs_divisor r1) = inr v1 ->
     genuine_id (instantaneous_demand_answer env (n_id w)) = Some r2 ->
     convert (demand r2) (id_multiplier r2) (id_divisor r2) = inr v2 ->
     snd (cycle cfg env p u w) = inr 0) /\
  (forall cfg env p n w v,
     snd (polling_loop cfg env n p 0 w) = inr v ->
     0 <= v <= CLIENT_UNRESPONSIVE_MAX) /\
  (forall cfg env u w,
     0 <= u <= CLIENT_UNRESPONSIVE_MAX ->
     0 <= u + 1 <= CLIENT_UNRESPONSIVE_MAX + 1 /\
     snd (handle_nonresponse cfg env u w) =
       inr (if CLIENT_UNRESPONSIVE_MAX <? u + 1 then 0 else u + 1)).
Proof.
  split; [|split; [|split]].
  - intros cfg env p u u' w r H.
    rewrite !cycle_unfold. unfold poll_once.
    erewrite bind_inr by reflexivity. erewrite bind_inr by reflexivity.
    cbv beta. cbn [n_cs]. now rewrite H.
  - intros cfg env p u w r1 v1 r2 v2 H1 Hc1 H2 Hc2.
    now rewrite (cycle_both_genuine cfg env p u w r1 v1 r2 v2 H1 Hc1 H2 Hc2).
  - intros cfg env p n w v H. eapply polling_loop_range; [|exact H].
    unfold CLIENT_UNRESPONSIVE_MAX; lia.
  - intros cfg env u w Hu. split; [unfold CLIENT_UNRESPONSIVE_MAX in *; lia|].
    apply handle_nonresponse_result.
Qed.

Lemma success_resets_counter_witness :
  cycle cfg0 env_good prefix0 3 w_loop0 = cycle cfg0 env_good prefix0 0 w_loop0 /\
  snd (cycle cfg0 env_good prefix0 3 w_loop0) = inr 0 /\
  (forall v, snd (polling_loop cfg0 env_good 5 prefix0 0 w_loop0) = inr v ->
     0 <= v <= CLIENT_UNRESPONSIVE_MAX) /\
  snd (handle_nonresponse cfg0 env_good 3 w_loop0) = inr 0.
Proof.
  destruct success_resets_counter as (Ha & Hb & Hc & Hd).
  split; [|split; [|split]].
  - apply (Ha cfg0 env_good prefix0 3 0 w_loop0 cs_ok). reflexivity.
  - apply (Hb cfg0 env_good prefix0 3 w_loop0 cs_ok (mkDec false 12345 (-3))
             id_ok (mkDec false 1234 (-3))); reflexivity.
  - intro v. apply (Hc cfg0 env_good prefix0 5%nat w_loop0 v).
  - apply (proj2 (Hd cfg0 env_good 3 w_loop0 ltac:(unfold CLIENT_UNRESPONSIVE_MAX; lia))).
Defined.

(** C2 (as amended).  In a cycle whose CurrentSummation answer is genuine,
    the counter is reset and the reading converted, but the reading is
    published (retained, as [{"reading": float}] on the CurrentSummation
    state topic) only when the InstantaneousDemand answer of the same cycle
    is genuine too; otherwise nothing is published and the counter ends
    the cycle at 1 whatever it was before. *)
Theorem summation_published_with_demand (cfg : Config) (env : Env) (p : string)
  (u : Z) (w : World) (r : CurrentSummationDelivered) (v : Dec) :
  genuine_cs (current_summation_answer env (n_cs w)) = Some r ->
  convert (summation_delivered r) (cs_multiplier r) (cs_divisor r) = inr v ->
  (genuine_id (instantaneous_demand_answer env (n_id w)) = None ->
   exists w', cycle cfg env p u w = (w', inr 1) /\
   trace w' = trace w ++ broker_events (broker_reconnects env (n_cycle w)) (on_connect_cb w)
              ++ [EvGetCurrentSummation; EvGetInstantaneousDemand;
                  EvSleep (general_interval_s cfg)]) /\
  (forall r2 v2,
   genuine_id (instantaneous_demand_answer env (n_id w)) = Some r2 ->
   convert (demand r2) (id_multiplier r2) (id_divisor r2) = inr v2 ->
   exists w', cycle cfg env p u w = (w', inr 0) /\
   trace w' = trace w ++ broker_events (broker_reconnects env (n_cycle w)) (on_connect_cb w)
              ++ [EvGetCurrentSummation; EvGetInstantaneousDemand;
                  EvPublish (cs_state_topic p) (PJson (JObj [("reading"%string, JFloat v)])) true;
                  EvPublish (id_state_topic p) (PJson (JObj [("reading"%string, JFloat v2)])) true;
                  EvSleep (general_interval_s cfg)]).
Proof.
  intros H1 Hc. split.
  - intro H2. rewrite (cycle_demand_silent cfg env p u w r v H1 Hc H2). eauto.
  - intros r2 v2 H2 Hc2.
    rewrite (cycle_both_genuine cfg env p u w r v r2 v2 H1 Hc H2 Hc2). eauto.
Qed.

Lemma summation_published_with_demand_witness :
  exists w', cycle cfg0 env_demand_silent prefix0 0 w_loop0 = (w', inr 1) /\
  trace w' = trace w_loop0 ++ broker_events 0 (on_connect_cb w_loop0)
             ++ [EvGetCurrentSummation; EvGetInstantaneousDemand; EvSleep 10].
Proof.
  apply (summation_published_with_demand cfg0 env_demand_silent prefix0 0 w_loop0
           cs_ok (mkDec false 12345 (-3))); reflexivity.
Defined.

(** C2, counterexample: one loop cycle of a run where the CurrentSummation
    answer is genuine and the InstantaneousDemand answer is missing; the
    whole run publishes nothing to the CurrentSummation state topic. *)
Lemma summation_dropped_without_demand :
  genuine_cs (current_summation_answer env_demand_silent 0) = Some cs_ok /\
  snd (execute cfg0 env_demand_silent 1) = inr 1 /\
  publishes_to (cs_state_topic prefix0) (trace (fst (execute cfg0 env_demand_silent 1)))
  = false.
Proof. vm_compute. auto. Qed.

(** C1 (the code falls short of it).  When every CurrentSummation answer is
    genuine and no InstantaneousDemand answer is, the counter is zeroed by
    each CurrentSummation success (line 165) and only reaches 1: however
    many InstantaneousDemand non-responses follow each other, the device
    link is never reset, and each cycle just sleeps. *)
Theorem demand_nonresponses_never_reset (cfg : Config) (env : Env) (p : string)
  (w : World) :
  (forall k, (n_cs w <= k)%nat -> exists r v,
     genuine_cs (current_summation_answer env k) = Some r /\
     convert (summation_delivered r) (cs_multiplier r) (cs_divisor r) = inr v) ->
  (forall k, (n_id w <= k)%nat ->
     genuine_id (instantaneous_demand_answer env k) = None) ->
  forall n, exists w' tr,
    polling_loop cfg env n p 0 w = (w', inr (Z.min 1 (Z.of_nat n))) /\
    trace w' = trace w ++ tr /\
    device_view tr =
      List.concat (repeat [EvGetCurrentSummation; EvGetInstantaneousDemand;
                           EvSleep (general_interval_s cfg)] n) /\
    ~ In EvStopSerial tr.
Proof.
  intros Hcs Hid n.
  destruct (loop_demand_silent cfg env p n 0 w Hcs Hid) as (w' & tr & Hrun & Htr & Hdv).
  exists w', tr. rewrite Hrun.
  split; [destruct n; [reflexivity|]; do 2 f_equal; lia|].
  split; [exact Htr|]. split; [exact Hdv|].
  intro Hin.
  assert (Hd : In EvStopSerial (device_view tr)) by (apply filter_In; now split).
  rewrite Hdv in Hd. apply in_concat_repeat in Hd. cbn in Hd. intuition discriminate.
Qed.

Lemma demand_nonresponses_never_reset_witness :
  exists w' tr,
    polling_loop cfg0 env_demand_silent 6 prefix0 0 w_loop0 = (w', inr (Z.min 1 (Z.of_nat 6))) /\
    trace w' = trace w_loop0 ++ tr /\
    device_view tr =
      List.concat (repeat [EvGetCurrentSummation; EvGetInstantaneousDemand; EvSleep 10] 6) /\
    ~ In EvStopSerial tr.
Proof.
  apply (demand_nonresponses_never_reset cfg0 env_demand_silent prefix0 w_loop0).
  - intros k _. exists cs_ok, (mkDec false 12345 (-3)). split; reflexivity.
  - intros [|k] Hk; [vm_compute in Hk; lia | reflexivity].
Defined.

(** C7 (the code falls short of it).  The reset path (lines 158-160) does
    not look at the result of [start_serial], unlike startup (lines 62-65):
    when the serial port cannot be reopened the loop goes on polling the
    closed link, nothing is raised and [main] does not exit. *)
Theorem reconnect_failure_not_fatal :
  device_view (trace (fst (execute cfg0 env_reopen_fails 6))) =
    [EvStartSerial "/dev/ttyACM0" true; EvSetScheduleDefault;
     EvGetDeviceInfo; EvGetInstantaneousDemand;
     EvGetCurrentSummation; EvSleep 10; EvGetCurrentSummation; EvSleep 10;
     EvGetCurrentSummation; EvSleep 10; EvGetCurrentSummation;
     EvStopSerial; EvStartSerial "/dev/ttyACM0" false;
     EvGetCurrentSummation; EvSleep 10; EvGetCurrentSummation; EvSleep 10] /\
  snd (execute cfg0 env_reopen_fails 6) = inr 2 /\
  main_exit (snd (execute cfg0 env_reopen_fails 6)) = None.
Proof. vm_compute. auto. Qed.

Lemma startup_failure_exits_witness :
  start_serial_answer env_dead 0 = false /\
  main_exit (snd (execute cfg0 env_dead 3)) = Some 1.
Proof.
  split; [reflexivity|].
  exact (proj1 (proj2 (startup_failure_exits cfg0 env_dead 3 eq_refl))).
Defined.

Lemma few_nonresponses_back_off_witness :
  exists w' tr,
    polling_loop cfg0 env_silent 3 prefix0 0 w_silent0 = (w', inr (Z.of_nat 3)) /\
    trace w' = trace w_silent0 ++ tr /\
    device_view tr = List.concat (repeat [EvGetCurrentSummation; EvSleep 10] 3) /\
    ~ In EvStopSerial tr.
Proof.
  apply (few_nonresponses_back_off cfg0 env_silent prefix0 3 w_silent0).
  - lia.
  - intros i _. reflexivity.
Defined.

Lemma fourth_nonresponse_resets_witness :
  exists w4 tr,
    polling_loop cfg0 env_silent 4 prefix0 0 w_silent0 = (w4, inr 0) /\
    trace w4 = trace w_silent0 ++ tr /\
    device_view tr =
      [EvGetCurrentSummation; EvSleep 10; EvGetCurrentSummation; EvSleep 10;
       EvGetCurrentSummation; EvSleep 10; EvGetCurrentSummation; EvStopSerial;
       EvStartSerial "/dev/ttyACM0" true] /\
    (forall u, exists tr',
       trace (fst (cycle cfg0 env_silent prefix0 u w4)) = trace w4 ++ tr' /\
       exists rest, device_view tr' = EvGetCurrentSummation :: rest).
Proof.
  apply (fourth_nonresponse_resets cfg0 env_silent prefix0 w_silent0).
  intros i _. reflexivity.
Defined.

(** ** The shape of a whole run *)

Lemma paired_app (p : string) (a b : list Event) :
  paired p a -> paired p b -> paired p (a ++ b).
Proof.
  intros Ha Hb. induction Ha; cbn; [exact Hb | now constructor | now constructor].
Qed.

Lemma paired_of_forall (p : string) (tr : list Event) :
  Forall (fun e => e <> EvBrokerConnected) tr -> paired p tr.
Proof. induction 1; now constructor. Qed.

Lemma paired_broker (p : string) (n : nat) : paired p (broker_events n (Some p)).
Proof.
  induction n as [|n IH]; [constructor|].
  unfold broker_events in *. cbn [repeat List.concat app]. now constructor.
Qed.

Lemma paired_follow (p : string) (tr : list Event) :
  paired p tr -> forall pre post, tr = pre ++ EvBrokerConnected :: post ->
  exists post', post = EvPublish (availability_topic p) (PStr "online") true :: post'.
Proof.
  induction 1 as [|tr Htr IH|e tr He Htr IH]; intros pre post Heq.
  - destruct pre; discriminate.
  - destruct pre as [|x [|y pre]]; cbn in Heq; injection Heq; intros; subst;
      eauto; congruence.
  - destruct pre as [|x pre]; cbn in Heq; injection Heq; intros; subst;
      eauto; congruence.
Qed.

Lemma loop_trace (cfg : Config) (env : Env) (p : string) :
  forall n u w, on_connect_cb w = Some p ->
  exists L, trace (fst (polling_loop cfg env n p u w)) = trace w ++ L /\
            Forall (loop_event p) L /\ paired p L.
Proof.
  induction n as [|n IH]; intros u w Hcb.
  - exists []. cbn. rewrite app_nil_r. repeat constructor.
  - assert (Hc : on_connect_cb (fst (cycle cfg env p u w)) = Some p /\
                 exists tr1, trace (fst (cycle cfg env p u w)) =
                   trace w ++ broker_events (broker_reconnects env (n_cycle w)) (Some p)
                     ++ EvGetCurrentSummation :: tr1 /\ Forall (poll_event p) tr1).
    { rewrite cycle_unfold, Hcb.
      match goal with |- context [poll_once cfg env p u ?w2] =>
        destruct (poll_once_trace cfg env p u w2) as (Hcb2 & tr1 & Htr1 & Hf) end.
      cbn [on_connect_cb trace] in Hcb2, Htr1.
      split; [exact Hcb2|]. exists tr1. rewrite Htr1, <- app_assoc. now split. }
    assert (HL : forall tr1, Forall (poll_event p) tr1 ->
              Forall (loop_event p)
                (broker_events (broker_reconnects env (n_cycle w)) (Some p)
                   ++ EvGetCurrentSummation :: tr1) /\
              paired p (broker_events (broker_reconnects env (n_cycle w)) (Some p)
                   ++ EvGetCurrentSummation :: tr1)).
    { intros tr1 Hf. split.
      - apply Forall_app. split.
        + apply Forall_forall. intros x Hx. unfold broker_events in Hx.
          apply in_concat_repeat in Hx. unfold loop_event.
          destruct Hx as [<-|[<-|[]]]; auto.
        + constructor; [left; exact I|].
          eapply Forall_impl; [|exact Hf]. intros; now left.
      - apply paired_app; [apply paired_broker|].
        constructor; [discriminate|]. apply paired_of_forall.
        eapply Forall_impl; [|exact Hf]. intros e He ->. exact He. }
    cbn [polling_loop]. unfold bind.
    destruct (cycle cfg env p u w) as [w3 [e|a]]; cbn [fst] in Hc;
      destruct Hc as (Hcb3 & tr1 & Htr1 & Hf); destruct (HL tr1 Hf) as [HF HP].
    + eexists. split; [exact Htr1|]. now split.
    + destruct (IH a w3 Hcb3) as (L & HtrL & HFL & HPL).
      exists ((broker_events (broker_reconnects env (n_cycle w)) (Some p)
                ++ EvGetCurrentSummation :: tr1) ++ L).
      rewrite HtrL, Htr1, !app_assoc. split; [reflexivity|].
      split; [now apply Forall_app | now apply paired_app].
Qed.

Lemma execute_shape (cfg : Config) (env : Env) (fuel : nat) :
  let tr := trace (fst (execute cfg env fuel)) in
  let p := run_prefix cfg env in
  (startup_ok env = true /\
   exists di idr L,
     device_info_answer env = Some di /\
     instantaneous_demand_answer env 0 = Some idr /\
     tr = setup_head cfg p ++ setup_mid cfg p ++ setup_tail (meter_mac idr) p di ++ L /\
     Forall (loop_event p) L /\ paired p L) \/
  (startup_ok env = false /\
   (tr = [EvStartSerial (emu_serial cfg) false] \/
    tr = [EvStartSerial (emu_serial cfg) true; EvSetScheduleDefault; EvGetDeviceInfo;
          EvGetInstantaneousDemand] \/
    tr = setup_head cfg p ++ [EvConnect (mqtt_hostname cfg) (mqtt_port cfg) false])).
Proof.
  cbv zeta. unfold execute, run, run_prefix, startup_ok.
  destruct (start_serial_answer env 0) eqn:Hs.
  2:{ right. split; [reflexivity|]. left.
      unfold setup, bind at 1 2. cbn. now rewrite Hs. }
  destruct (instantaneous_demand_answer env 0) as [idr|] eqn:Hid.
  2:{ right. split; [now destruct (device_info_answer env)|]. right. left.
      unfold setup, bind at 1 2. cbn. rewrite Hs. cbn. now rewrite Hid. }
  destruct (device_info_answer env) as [di|] eqn:Hdi.
  2:{ right. split; [reflexivity|]. right. left.
      unfold setup, bind at 1 2. cbn. rewrite Hs. cbn. now rewrite Hid, Hdi. }
  destruct (broker_connect_ok env) eqn:Hc.
  2:{ right. split; [reflexivity|]. right. right.
      unfold setup, connect, bind at 1 2. cbn. rewrite Hs. cbn. rewrite Hid, Hdi.
      cbn. now rewrite Hc. }
  left. split; [reflexivity|].
  set (p := mk_prefix cfg (meter_mac idr)).
  assert (E : setup cfg env initial_world =
    (mkWorld 1 0 1 0 (Some p)
       (setup_head cfg p ++ setup_mid cfg p ++ setup_tail (meter_mac idr) p di),
     inr p)).
  { unfold setup, connect. cbn. rewrite Hs. cbn. rewrite Hid, Hdi. cbn.
    now rewrite Hc. }
  erewrite bind_inr by exact E.
  destruct (loop_trace cfg env p fuel 0
              (mkWorld 1 0 1 0 (Some p)
                 (setup_head cfg p ++ setup_mid cfg p ++ setup_tail (meter_mac idr) p di))
              eq_refl) as (L & HL & HF & HP).
  exists di, idr, L. rewrite HL. cbn [trace]. rewrite <- !app_assoc.
  repeat split; assumption.
Qed.

Lemma eqb_app_l (p a b : string) :
  String.eqb (p ++ a) (p ++ b) = String.eqb a b.
Proof.
  induction p as [|c p IH]; [reflexivity|].
  cbn [append String.eqb]. now rewrite Ascii.eqb_refl.
Qed.

Ltac topics :=
  unfold is_config_publish, is_state_publish, topic_is,
    availability_topic, cs_config_topic, id_config_topic,
    cs_state_topic, id_state_topic in *;
  cbn in *; rewrite ?eqb_app_l in *; cbn in *.

Lemma loop_event_topics (p : string) (e : Event) :
  loop_event p e ->
  is_config_publish p e = false /\ ~ is_connect e /\
  e <> EvGetDeviceInfo.
Proof.
  intros [He | [ -> | -> ]].
  - destruct e; cbn in He; try contradiction;
      try (split; [reflexivity|split; [intros []|discriminate]]).
    destruct He as [_ [ -> | -> ]]; topics; repeat split; try discriminate; intros [].
  - repeat split; [intros []|discriminate].
  - topics. repeat split; [intros []|discriminate].
Qed.

Lemma filter_none {A} (f : A -> bool) (l : list A) :
  Forall (fun x => f x = false) l -> filter f l = [].
Proof. induction 1 as [|x l Hx _ IH]; cbn; [reflexivity|]. now rewrite Hx. Qed.

Lemma prefix_of_first {A} (P : A -> Prop) (S L pre post : list A) (e : A) :
  pre ++ e :: post = S ++ L -> P e -> Forall (fun x => ~ P x) S ->
  exists pre2, pre = S ++ pre2 /\ L = pre2 ++ e :: post.
Proof.
  revert pre. induction S as [|x S IH]; intros pre Heq He HS.
  - exists pre. split; [reflexivity|]. now rewrite Heq.
  - inversion HS as [|? ? Hx HS']; subst.
    destruct pre as [|y pre]; cbn in Heq; injection Heq as Hy Heq.
    + subst. contradiction.
    + destruct (IH pre Heq He HS') as (pre2 & -> & HL).
      exists pre2. rewrite Hy. split; [reflexivity|exact HL].
Qed.

Lemma first_is_head {A} (P : A -> Prop) (x : A) (R pre post : list A) (e : A) :
  pre ++ e :: post = x :: R -> P e -> Forall (fun y => ~ P y) R ->
  pre = [] /\ e = x /\ post = R.
Proof.
  intros Heq He HR. destruct pre as [|y pre]; cbn in Heq.
  - injection Heq. auto.
  - injection Heq as -> Heq. exfalso. rewrite Forall_forall in HR.
    apply (HR e); [rewrite <- Heq; apply in_elt|exact He].
Qed.

(** C8. In every run the two discovery descriptors are published to their
    config topics exactly once when the startup succeeds (a run whose startup
    fails exits before line 136 and publishes nothing at all); each such
    publish is retained; it comes after the DeviceInfo and
    InstantaneousDemand (meter identity) requests; and both descriptors come
    before any publish to either state topic. *)
Theorem discovery_published_once_first (cfg : Config) (env : Env) (fuel : nat) :
  let tr := trace (fst (execute cfg env fuel)) in
  let p := run_prefix cfg env in
  List.length (filter (topic_is (cs_config_topic p)) tr) =
    (if startup_ok env then 1 else 0)%nat /\
  List.length (filter (topic_is (id_config_topic p)) tr) =
    (if startup_ok env then 1 else 0)%nat /\
  (forall e, In e tr -> is_config_publish p e = true ->
     exists t pl, e = EvPublish t pl true) /\
  (forall pre e post, tr = pre ++ e :: post -> is_config_publish p e = true ->
     In EvGetDeviceInfo pre /\ In EvGetInstantaneousDemand pre) /\
  (forall pre e post, tr = pre ++ e :: post -> is_state_publish p e = true ->
     exists pl1 pl2, In (EvPublish (cs_config_topic p) pl1 true) pre /\
                     In (EvPublish (id_config_topic p) pl2 true) pre).
Proof.
  pose proof (execute_shape cfg env fuel) as H. cbv zeta in *.
  set (tr := trace (fst (execute cfg env fuel))) in *. clearbody tr.
  set (p := run_prefix cfg env) in *. clearbody p.
  destruct H as [[Hok (di & idr & L & _ & _ & -> & HF & _)] | [Hok Htr]];
    rewrite Hok.
  - assert (HL : Forall (fun e => is_config_publish p e = false /\ ~ is_connect e /\
                                  e <> EvGetDeviceInfo) L).
    { eapply Forall_impl; [|exact HF]. apply loop_event_topics. }
    assert (HLc : Forall (fun e => is_config_publish p e = false) L).
    { eapply Forall_impl; [|exact HL]. intros e He; apply He. }
    assert (H1 : Forall (fun e => topic_is (cs_config_topic p) e = false) L).
    { eapply Forall_impl; [|exact HLc]. intros e He.
      unfold is_config_publish in He. apply orb_false_iff in He. tauto. }
    assert (H2 : Forall (fun e => topic_is (id_config_topic p) e = false) L).
    { eapply Forall_impl; [|exact HLc]. intros e He.
      unfold is_config_publish in He. apply orb_false_iff in He. tauto. }
    split; [|split; [|split; [|split]]].
    + rewrite !filter_app, (filter_none _ _ H1), app_nil_r.
      unfold setup_head, setup_mid, setup_tail. topics. reflexivity.
    + rewrite !filter_app, (filter_none _ _ H2), app_nil_r.
      unfold setup_head, setup_mid, setup_tail. topics. reflexivity.
    + intros e Hin He. apply in_app_or in Hin as [Hin|Hin].
      { unfold setup_head in Hin. cbn in Hin.
        repeat destruct Hin as [<-|Hin]; try contradiction; topics; discriminate. }
      apply in_app_or in Hin as [Hin|Hin].
      { unfold setup_mid in Hin. cbn in Hin.
        repeat destruct Hin as [<-|Hin]; try contradiction; topics; discriminate. }
      apply in_app_or in Hin as [Hin|Hin].
      { unfold setup_tail in Hin. cbn in Hin.
        repeat destruct Hin as [<-|Hin]; try contradiction; eauto. }
      rewrite Forall_forall in HLc. rewrite (HLc e Hin) in He. discriminate.
    + intros pre e post Heq He. rewrite app_assoc in Heq.
      destruct (prefix_of_first (fun x => is_config_publish p x = true) _ _ _ _ _
                  (eq_sym Heq) He) as (pre2 & -> & _).
      { unfold setup_head, setup_mid. cbn [app].
        repeat constructor; intro Hx; topics; discriminate. }
      unfold setup_head. cbn. tauto.
    + intros pre e post Heq He.
      rewrite (app_assoc (setup_mid cfg p)), app_assoc in Heq.
      destruct (prefix_of_first (fun x => is_state_publish p x = true) _ _ _ _ _
                  (eq_sym Heq) He) as (pre2 & -> & _).
      { unfold setup_head, setup_mid, setup_tail. cbn [app].
        repeat constructor; intro Hx; topics; discriminate. }
      exists (PJson (current_summation_discovery_config (meter_mac idr) p di)),
             (PJson (instantaneous_demand_discovery_config (meter_mac idr) p di)).
      unfold setup_head, setup_mid, setup_tail.
      split; apply in_or_app; left; cbn; intuition.
  - assert (Hno : forall e, In e tr -> topic_is (cs_config_topic p) e = false /\
                                       topic_is (id_config_topic p) e = false /\
                                       is_state_publish p e = false).
    { intros e Hin. destruct Htr as [->|[->| ->]]; cbn in Hin;
        repeat destruct Hin as [<-|Hin]; try contradiction; topics; auto. }
    assert (Hnil : forall f, (forall e, In e tr -> f e = false) -> filter f tr = []).
    { intros f Hf. apply filter_none, Forall_forall. exact Hf. }
    split; [|split; [|split; [|split]]].
    + rewrite Hnil; [reflexivity|]. apply Hno.
    + rewrite Hnil; [reflexivity|]. apply Hno.
    + intros e Hin He. destruct (Hno e Hin) as (Ha & Hb & _).
      unfold is_config_publish in He. rewrite Ha, Hb in He. discriminate.
    + intros pre e post Heq He. assert (Hin : In e tr) by (rewrite Heq; apply in_elt).
      destruct (Hno e Hin) as (Ha & Hb & _).
      unfold is_config_publish in He. rewrite Ha, Hb in He. discriminate.
    + intros pre e post Heq He. assert (Hin : In e tr) by (rewrite Heq; apply in_elt).
      destruct (Hno e Hin) as (_ & _ & Hc). congruence.
Qed.

(** C9. The retained last will "offline" on the availability topic is
    registered before every broker connect call; a successful connect is
    followed (after [loop_start]) by the retained "online" publish on that
    same topic; and every later reconnection, which the model delivers at a
    cycle boundary once [client.on_connect] is registered (paho's reconnect
    delay is at least a second), is immediately followed by the same publish. *)
Theorem availability_will_and_online (cfg : Config) (env : Env) (fuel : nat) :
  let tr := trace (fst (execute cfg env fuel)) in
  let p := run_prefix cfg env in
  (forall pre h po ok post, tr = pre ++ EvConnect h po ok :: post ->
     In (EvWillSet (availability_topic p) (PStr "offline") true) pre) /\
  (forall pre h po post, tr = pre ++ EvConnect h po true :: post ->
     exists post', post = EvLoopStart ::
                          EvPublish (availability_topic p) (PStr "online") true :: post') /\
  (forall pre post, tr = pre ++ EvBrokerConnected :: post ->
     exists post', post = EvPublish (availability_topic p) (PStr "online") true :: post').
Proof.
  pose proof (execute_shape cfg env fuel) as H. cbv zeta in *.
  set (tr := trace (fst (execute cfg env fuel))) in *. clearbody tr.
  set (p := run_prefix cfg env) in *. clearbody p.
  assert (Hhead : Forall (fun x => ~ is_connect x) (setup_head cfg p)).
  { repeat constructor; intros []. }
  destruct H as [[_ (di & idr & L & _ & _ & -> & HF & HP)] | [_ Htr]].
  - assert (HL : Forall (fun x => ~ is_connect x) L).
    { eapply Forall_impl; [|exact HF]. intros e He. apply (loop_event_topics p e He). }
    split; [|split].
    + intros pre h po ok post Heq.
      destruct (prefix_of_first is_connect _ _ _ _ _ (eq_sym Heq) I Hhead)
        as (pre2 & -> & _).
      apply in_or_app. left. cbn. tauto.
    + intros pre h po post Heq.
      destruct (prefix_of_first is_connect _ _ _ _ _ (eq_sym Heq) I Hhead)
        as (pre2 & _ & Hrest).
      unfold setup_mid in Hrest. cbn [app] in Hrest.
      destruct (first_is_head is_connect _ _ _ _ _ (eq_sym Hrest) I)
        as (_ & _ & ->).
      { repeat constructor; try (intros []); exact HL. }
      eexists. reflexivity.
    + intros pre post Heq. rewrite (app_assoc (setup_mid cfg p)), app_assoc in Heq.
      destruct (prefix_of_first (fun x => x = EvBrokerConnected) _ _ _ _ _
                  (eq_sym Heq) eq_refl) as (pre2 & _ & HL2).
      { unfold setup_head, setup_mid, setup_tail. cbn [app].
        repeat constructor; discriminate. }
      exact (paired_follow p L HP pre2 post HL2).
  - destruct Htr as [->|[->| ->]]; split; [| split| | split | | split];
      intros *; intros Heq;
      try (exfalso; match type of Heq with _ = ?pre ++ ?e :: ?post =>
             assert (Hin : In e (pre ++ e :: post)) by apply in_elt end;
           rewrite <- Heq in Hin; cbn in Hin;
           repeat destruct Hin as [Hin|Hin]; try discriminate; contradiction).
    destruct (prefix_of_first is_connect _ _ _ _ _ (eq_sym Heq) I Hhead)
      as (pre2 & -> & _).
    apply in_or_app. left. cbn. tauto.
Qed.

Lemma discovery_published_once_first_witness :
  startup_ok env_good = true /\
  List.length (filter (topic_is (cs_config_topic (run_prefix cfg0 env_good)))
                 (trace (fst (execute cfg0 env_good 2)))) = 1%nat /\
  List.length (filter (topic_is (id_config_topic (run_prefix cfg0 env_good)))
                 (trace (fst (execute cfg0 env_good 2)))) = 1%nat.
Proof.
  pose proof (discovery_published_once_first cfg0 env_good 2) as H.
  cbv zeta in H. destruct H as (H1 & H2 & _).
  split; [reflexivity|]. split; [exact H1|exact H2].
Defined.

Lemma availability_will_and_online_witness :
  let tr := trace (fst (execute cfg0 env_good 2)) in
  let p := run_prefix cfg0 env_good in
  tr = firstn 5 tr ++ EvConnect "localhost" 1883 true :: skipn 6 tr /\
  In (EvWillSet (availability_topic p) (PStr "offline") true) (firstn 5 tr) /\
  (exists post', skipn 6 tr =
     EvLoopStart :: EvPublish (availability_topic p) (PStr "online") true :: post') /\
  tr = firstn 16 tr ++ EvBrokerConnected :: skipn 17 tr /\
  (exists post', skipn 17 tr =
     EvPublish (availability_topic p) (PStr "online") true :: post').
Proof.
  pose proof (availability_will_and_online cfg0 env_good 2) as H.
  cbv zeta in *. destruct H as (H1 & H2 & H3).
  assert (E1 : trace (fst (execute cfg0 env_good 2)) =
               firstn 5 (trace (fst (execute cfg0 env_good 2))) ++
               EvConnect "localhost" 1883 true ::
               skipn 6 (trace (fst (execute cfg0 env_good 2))))
    by (vm_compute; reflexivity).
  assert (E2 : trace (fst (execute cfg0 env_good 2)) =
               firstn 16 (trace (fst (execute cfg0 env_good 2))) ++
               EvBrokerConnected ::
               skipn 17 (trace (fst (execute cfg0 env_good 2))))
    by (vm_compute; reflexivity).
  split; [exact E1|]. split; [exact (H1 _ _ _ _ _ E1)|].
  split; [exact (H2 _ _ _ _ E1)|]. split; [exact E2|]. exact (H3 _ _ E2).
Defined.

(** ** Facts about the decimal model *)

Lemma ndigits_aux_pos (f : nat) (n : Z) : 1 <= ndigits_aux f n.
Proof.
  revert n. induction f as [|f IH]; intros n; cbn [ndigits_aux]; [lia|].
  destruct (n <? 10); [lia|]. specialize (IH (n / 10)). lia.
Qed.

Lemma ndigits_aux_spec (f : nat) (n : Z) :
  0 < n < 2 ^ Z.of_nat f ->
  10 ^ (ndigits_aux f n - 1) <= n < 10 ^ ndigits_aux f n.
Proof.
  revert n. induction f as [|f IH]; intros n [H0 H1]; [cbn in H1; lia|].
  cbn [ndigits_aux]. destruct (Z.ltb_spec n 10) as [Hn|Hn].
  - cbn. lia.
  - rewrite Nat2Z.inj_succ, Z.pow_succ_r in H1 by lia.
    pose proof (Z.div_mod n 10 ltac:(lia)) as Hdm.
    pose proof (Z.mod_pos_bound n 10 ltac:(lia)) as Hmb.
    destruct (IH (n / 10)) as [Hlo Hhi]; [lia|].
    pose proof (ndigits_aux_pos f (n / 10)) as Hp.
    set (d := ndigits_aux f (n / 10)) in *.
    replace (1 + d - 1) with (Z.succ (d - 1)) by lia.
    replace (1 + d) with (Z.succ (Z.succ (d - 1))) by lia.
    replace d with (Z.succ (d - 1)) in Hhi by lia.
    rewrite !Z.pow_succ_r in * by lia. lia.
Qed.

Lemma ndigits_spec (n : Z) :
  0 < n -> 10 ^ (ndigits n - 1) <= n < 10 ^ ndigits n.
Proof.
  intros Hn. apply ndigits_aux_spec. split; [exact Hn|].
  rewrite Nat2Z.inj_succ, Z2Nat.id by apply Z.log2_nonneg.
  apply Z.log2_spec. exact Hn.
Qed.

Lemma ndigits_pos (n : Z) : 1 <= ndigits n.
Proof. apply ndigits_aux_pos. Qed.

Lemma ndigits_le (n k : Z) : 0 < n < 10 ^ k -> ndigits n <= k.
Proof.
  intros Hn. destruct (Z.le_gt_cases (ndigits n) k) as [|Hk]; [assumption|].
  pose proof (ndigits_spec n (proj1 Hn)) as [Hlo _].
  assert (10 ^ k <= 10 ^ (ndigits n - 1)) by (apply Z.pow_le_mono_r; lia).
  lia.
Qed.

(** A coefficient of at most 28 digits with an exponent in [Etiny, 0] is
    left alone by [_fix]. *)
Lemma fix_dec_noop (s : bool) (c e : Z) :
  0 < c < 10 ^ prec -> Etiny <= e <= 0 ->
  fix_dec (mkDec s c e) = inr (mkDec s c e).
Proof.
  intros Hc He. pose proof (ndigits_le c prec Hc) as Hnd.
  pose proof (ndigits_pos c).
  unfold fix_dec. replace (c =? 0) with false by (symmetry; apply Z.eqb_neq; lia).
  unfold Etop, Etiny, Emax, Emin, prec in *.
  destruct (Z.ltb_spec (999999 - 28 + 1) (ndigits c + e - 28)); [lia|].
  destruct (Z.ltb_spec (ndigits c + e - 28) (-999999 - 28 + 1)).
  - destruct (Z.ltb_spec e (-999999 - 28 + 1)); [lia|reflexivity].
  - destruct (Z.ltb_spec e (ndigits c + e - 28)); [lia|reflexivity].
Qed.

Lemma strip_zeros_shift (n f : nat) (c e : Z) :
  strip_zeros (n + f) (c * 10 ^ Z.of_nat n) e = strip_zeros f c (e + Z.of_nat n).
Proof.
  revert e. induction n as [|n IH]; intros e.
  - cbn. now rewrite Z.mul_1_r, Z.add_0_r.
  - cbn [Nat.add strip_zeros].
    rewrite Nat2Z.inj_succ, Z.pow_succ_r by lia.
    replace (c * (10 * 10 ^ Z.of_nat n)) with ((c * 10 ^ Z.of_nat n) * 10) by ring.
    rewrite Z.mod_mul, Z.div_mul by lia. cbn [Z.eqb].
    rewrite IH. f_equal. lia.
Qed.

Lemma strip_zeros_inv (f : nat) (c e : Z) :
  0 <= c ->
  let '(c', e') := strip_zeros f c e in
  0 <= c' <= c /\ e <= e' <= e + Z.of_nat f /\ c' * 10 ^ (e' - e) = c.
Proof.
  revert c e. induction f as [|f IH]; intros c e Hc; cbn [strip_zeros].
  - rewrite Z.sub_diag. cbn. lia.
  - destruct (Z.eqb_spec (c mod 10) 0) as [H0|H0].
    + pose proof (Z.div_mod c 10 ltac:(lia)) as Hdm.
      assert (0 <= c / 10) by (apply Z.div_pos; lia).
      specialize (IH (c / 10) (e + 1) ltac:(assumption)).
      destruct (strip_zeros f (c / 10) (e + 1)) as [c' e'].
      destruct IH as (H1 & H2 & H3).
      split; [lia|]. split; [lia|].
      replace (e' - e) with (Z.succ (e' - (e + 1))) by lia.
      rewrite Z.pow_succ_r by lia. lia.
    + rewrite Z.sub_diag. cbn. lia.
Qed.

Lemma div_eucl_split (a b : Z) : Z.div_eucl a b = (a / b, a mod b).
Proof. unfold Z.div, Z.modulo. now destruct (Z.div_eucl a b). Qed.

Lemma mul_of_int_exact (raw mult : Z) :
  Z.abs (raw * mult) < 10 ^ prec ->
  mul (of_int raw) mult =
    inr (mkDec (xorb (raw <? 0) (mult <? 0)) (Z.abs (raw * mult)) 0).
Proof.
  intros H. unfold mul, of_int. cbn [dsign dint dexp].
  rewrite <- Z.abs_mul, Z.add_0_r.
  destruct (Z.eq_dec (Z.abs (raw * mult)) 0) as [E|E].
  - rewrite E. reflexivity.
  - apply fix_dec_noop; unfold Etiny, Emin, prec in *; lia.
Qed.

Lemma div_exact (s : bool) (A dv M k : Z) :
  0 <= A < 10 ^ prec -> 0 < Z.abs dv < 10 ^ prec -> 0 <= k ->
  0 <= M < 10 ^ prec -> A * 10 ^ k = M * Z.abs dv ->
  exists c e, div (mkDec s A 0) dv = inr (mkDec (xorb s (dv <? 0)) c e) /\
              -k <= e <= 0 /\ c * 10 ^ (e + k) = M.
Proof.
  intros HA Hdv Hk HM Heq. unfold div, of_int. cbn [dsign dint dexp].
  replace (Z.abs dv =? 0) with false by (symmetry; apply Z.eqb_neq; lia).
  set (B := Z.abs dv) in *.
  assert (HY : 0 < 10 ^ k) by (apply Z.pow_pos_nonneg; lia).
  destruct (Z.eqb_spec A 0) as [->|HA0].
  - exists 0, 0. split; [reflexivity|]. split; [lia|]. nia.
  - pose proof (ndigits_le A prec ltac:(lia)) as HnA.
    pose proof (ndigits_le B prec ltac:(lia)) as HnB.
    pose proof (ndigits_pos A). pose proof (ndigits_pos B).
    pose proof (ndigits_spec A ltac:(lia)) as [HAlo _].
    pose proof (ndigits_spec B ltac:(lia)) as [_ HBhi].
    set (shift := ndigits B - ndigits A + prec + 1).
    assert (Hks : k < shift).
    { destruct (Z.lt_ge_cases k shift) as [|Hge]; [assumption|]. exfalso.
      assert (10 ^ (prec + ndigits B) <= 10 ^ (ndigits A - 1 + k))
        by (apply Z.pow_le_mono_r; unfold shift in Hge; lia).
      rewrite !Z.pow_add_r in * by lia.
      assert (10 ^ (ndigits A - 1) * 10 ^ k <= A * 10 ^ k) by nia.
      assert (M * B < 10 ^ prec * 10 ^ ndigits B) by nia.
      lia. }
    assert (HM0 : 0 < M) by nia.
    replace (0 <=? shift) with true by (symmetry; apply Z.leb_le; lia).
    assert (Hsplit : A * 10 ^ shift = (M * 10 ^ (shift - k)) * B).
    { replace shift with (k + (shift - k)) at 1 by lia.
      rewrite Z.pow_add_r by lia. nia. }
    rewrite div_eucl_split, Hsplit, Z.div_mul, Z.mod_mul by lia.
    cbn [Z.eqb].
    replace (Z.to_nat (0 - 0 - (0 - 0 - shift)))
      with (Z.to_nat (shift - k) + Z.to_nat k)%nat by lia.
    assert (E : M * 10 ^ (shift - k) = M * 10 ^ Z.of_nat (Z.to_nat (shift - k)))
      by (rewrite Z2Nat.id; lia).
    rewrite E, strip_zeros_shift.
    pose proof (strip_zeros_inv (Z.to_nat k) M (0 - 0 - shift + Z.of_nat (Z.to_nat (shift - k)))
                  ltac:(lia)) as Hinv.
    destruct (strip_zeros _ _ _) as [c e].
    destruct Hinv as (Hc & He & Hce).
    exists c, e.
    assert (Hc0 : 0 < c).
    { destruct (Z.eq_dec c 0) as [->|]; [|lia]. lia. }
    split; [|split; [lia|]].
    + apply fix_dec_noop.
      * split; [exact Hc0|lia].
      * unfold shift in *. unfold Etiny, Emin, prec in *. lia.
    + rewrite <- Hce. f_equal. f_equal. lia.
Qed.

Lemma product_sign (raw mult : Z) :
  if xorb (raw <? 0) (mult <? 0) then raw * mult <= 0 else 0 <= raw * mult.
Proof. destruct (Z.ltb_spec raw 0), (Z.ltb_spec mult 0); cbn; nia. Qed.

(** C6 (counterexample). The conversion is not exact in general: 1 * 1 / 3
    comes back rounded to 28 significant digits. *)
Lemma convert_one_third_rounded :
  convert 1 1 3 = inr (mkDec false 3333333333333333333333333333 (-28)) /\
  ~ represents (mkDec false 3333333333333333333333333333 (-28)) 1 3.
Proof.
  split; [vm_compute; reflexivity|].
  unfold represents. vm_compute. intro H. discriminate H.
Qed.

(** ** More facts about the decimal model *)

Lemma ndigits_one : ndigits 1 = 1.
Proof. reflexivity. Qed.

Lemma round_half_even_bound (c digits : Z) :
  0 < c -> 0 <= digits < ndigits c ->
  0 <= fst (round_half_even c digits) <= 10 ^ digits /\
  (snd (round_half_even c digits) = false -> fst (round_half_even c digits) < 10 ^ digits).
Proof.
  intros Hc Hd. pose proof (ndigits_spec c Hc) as [_ Hhi].
  unfold round_half_even. cbv zeta.
  set (drop := ndigits c - digits).
  assert (Hp : 0 < 10 ^ drop) by (apply Z.pow_pos_nonneg; lia).
  assert (Hq : 0 <= c / 10 ^ drop < 10 ^ digits).
  { split; [apply Z.div_pos; lia|].
    apply Z.div_lt_upper_bound; [lia|].
    rewrite <- Z.pow_add_r by lia. replace (drop + digits) with (ndigits c) by lia.
    exact Hhi. }
  match goal with |- context [if ?b then _ else _] => destruct b end;
    cbn [fst snd]; split; lia || (intros; discriminate).
Qed.

Lemma fix_dec_bound (s : bool) (c e : Z) (d : Dec) :
  0 <= c -> fix_dec (mkDec s c e) = inr d -> 0 <= dint d < 10 ^ prec.
Proof.
  intros Hc H. unfold fix_dec in H.
  assert (H28 : 0 < 10 ^ prec) by (apply Z.pow_pos_nonneg; unfold prec; lia).
  destruct (Z.eqb_spec c 0) as [->|Hc0].
  { injection H as <-. cbn [dint]. lia. }
  pose proof (ndigits_spec c ltac:(lia)) as [Hlo Hhi].
  pose proof (ndigits_pos c).
  cbv zeta in H.
  destruct (Etop <? ndigits c + e - prec); [discriminate|].
  set (em := if ndigits c + e - prec <? Etiny then Etiny else ndigits c + e - prec) in H.
  assert (Hem : ndigits c + e - prec <= em)
    by (unfold em; destruct (Z.ltb_spec (ndigits c + e - prec) Etiny); lia).
  destruct (Z.ltb_spec e em) as [Hlt|Hge].
  - assert (Hcd : exists c0 dg,
              (if ndigits c + e - em <? 0 then (1, 0) else (c, ndigits c + e - em))
                = (c0, dg) /\ 0 < c0 /\ 0 <= dg < ndigits c0 /\ dg <= prec).
    { destruct (Z.ltb_spec (ndigits c + e - em) 0).
      - exists 1, 0. rewrite ndigits_one. unfold prec. repeat split; lia.
      - exists c, (ndigits c + e - em). repeat split; lia. }
    destruct Hcd as (c0 & dg & Hcd & Hc0' & Hdg & Hdgp). rewrite Hcd in H.
    pose proof (round_half_even_bound c0 dg Hc0' Hdg) as [Hb1 Hb2].
    destruct (round_half_even c0 dg) as [coeff changed]. cbn [fst snd] in Hb1, Hb2.
    assert (Hpow : 10 ^ dg <= 10 ^ prec) by (apply Z.pow_le_mono_r; lia).
    destruct (changed && (prec <? ndigits coeff)) eqn:Hb;
      (destruct (Etop <? _); [discriminate|]); injection H as <-; cbn [dint].
    + split; [apply Z.div_pos; lia|]. apply Z.div_lt_upper_bound; lia.
    + split; [lia|]. apply andb_false_iff in Hb as [Hb|Hb]; [specialize (Hb2 Hb); lia|].
      apply Z.ltb_ge in Hb. destruct (Z.eq_dec coeff 0) as [->|Hne]; [lia|].
      pose proof (ndigits_spec coeff ltac:(lia)) as [_ Hh].
      assert (10 ^ ndigits coeff <= 10 ^ prec) by (apply Z.pow_le_mono_r; lia). lia.
  - injection H as <-. cbn [dint]. split; [lia|].
    assert (10 ^ ndigits c <= 10 ^ prec) by (apply Z.pow_le_mono_r; lia). lia.
Qed.

Lemma fix_dec_no_overflow (s : bool) (c e : Z) :
  0 <= c -> ndigits c + e - prec < Etop -> exists d, fix_dec (mkDec s c e) = inr d.
Proof.
  intros Hc Hlt. unfold fix_dec.
  destruct (Z.eqb_spec c 0) as [->|Hc0]; [eexists; reflexivity|].
  cbv zeta.
  replace (Etop <? ndigits c + e - prec) with false by (symmetry; apply Z.ltb_ge; lia).
  set (em := if ndigits c + e - prec <? Etiny then Etiny else ndigits c + e - prec).
  assert (Hem : em < Etop)
    by (unfold em; destruct (Z.ltb_spec (ndigits c + e - prec) Etiny);
        unfold Etiny, Etop, Emin, Emax, prec in *; lia).
  destruct (e <? em); [|eexists; reflexivity].
  destruct (if ndigits c + e - em <? 0 then (1, 0) else (c, ndigits c + e - em))
    as [c0 dg].
  destruct (round_half_even c0 dg) as [coeff changed].
  destruct (changed && (prec <? ndigits coeff));
    (replace (Etop <? _) with false by (symmetry; apply Z.ltb_ge; lia));
    eexists; reflexivity.
Qed.

Lemma fix_dec_sign (d d' : Dec) : fix_dec d = inr d' -> dsign d' = dsign d.
Proof.
  destruct d as [s c e]. unfold fix_dec. cbv zeta. intro H.
  destruct (c =? 0); [now injection H as <-|].
  destruct (Etop <? _); [discriminate|].
  destruct (e <? _); [|now injection H as <-].
  destruct (if _ <? 0 then (1, 0) else _) as [c0 dg].
  destruct (round_half_even c0 dg) as [coeff changed].
  destruct (if changed && _ then _ else _) as [coeff' em'].
  destruct (Etop <? em'); [discriminate|]. now injection H as <-.
Qed.

Lemma ndigits_le' (n k : Z) : 0 <= n < 10 ^ k -> 1 <= k -> ndigits n <= k.
Proof.
  intros Hn Hk. destruct (Z.eq_dec n 0) as [->|]; [exact Hk|].
  apply ndigits_le. lia.
Qed.

Lemma mul_sign_bound (a : Dec) (n : Z) (d : Dec) :
  0 <= dint a -> mul a n = inr d ->
  dsign d = xorb (dsign a) (n <? 0) /\ 0 <= dint d < 10 ^ prec.
Proof.
  intros Ha H. unfold mul, of_int in H. cbn [dsign dint dexp] in H.
  split; [exact (fix_dec_sign _ _ H)|].
  refine (fix_dec_bound _ _ _ _ _ H). nia.
Qed.

Lemma div_sign_bound (a : Dec) (n : Z) (d : Dec) :
  0 <= dint a -> div a n = inr d ->
  dsign d = xorb (dsign a) (n <? 0) /\ 0 <= dint d < 10 ^ prec.
Proof.
  intros Ha H. unfold div, of_int in H. cbn [dsign dint dexp] in H. cbv zeta in H.
  destruct (Z.eqb_spec (Z.abs n) 0); [destruct (dint a =? 0); discriminate|].
  destruct (dint a =? 0).
  { split; [exact (fix_dec_sign _ _ H)|refine (fix_dec_bound _ _ _ _ _ H); lia]. }
  rewrite !div_eucl_split in H.
  match type of H with context [match (if 0 <=? ?sh then ?p1 else ?p2) with pair _ _ => _ end] =>
    destruct (if 0 <=? sh then p1 else p2) as [coeff rem] eqn:Hcr;
    assert (Hco : 0 <= coeff)
      by (destruct (Z.leb_spec 0 sh); injection Hcr as <- _;
          apply Z.div_pos; try lia;
          first [apply Z.mul_nonneg_nonneg; [lia|apply Z.pow_nonneg; lia]
                |apply Z.mul_pos_pos; [lia|apply Z.pow_pos_nonneg; lia]])
  end.
  match type of H with context [match (if rem =? 0 then ?p1 else ?p2) with pair _ _ => _ end] =>
    destruct (if rem =? 0 then p1 else p2) as [c' e'] eqn:Hce
  end.
  assert (Hc' : 0 <= c').
  { destruct (rem =? 0).
    - match type of Hce with strip_zeros ?f ?c ?x = _ =>
        pose proof (strip_zeros_inv f c x Hco) as Hi; rewrite Hce in Hi end.
      lia.
    - destruct (coeff mod 5 =? 0); injection Hce as <- _; lia. }
  split; [exact (fix_dec_sign _ _ H)|exact (fix_dec_bound _ _ _ _ Hc' H)].
Qed.

(** With a nonzero divisor and a dividend below [10^28], division raises
    nothing. *)
Lemma div_no_error (s : bool) (A n : Z) :
  0 <= A < 10 ^ prec -> n <> 0 -> exists d, div (mkDec s A 0) n = inr d.
Proof.
  intros HA Hn. unfold div, of_int. cbn [dsign dint dexp]. cbv zeta.
  replace (Z.abs n =? 0) with false by (symmetry; apply Z.eqb_neq; lia).
  destruct (Z.eqb_spec A 0) as [->|HA0]; [eexists; reflexivity|].
  set (B := Z.abs n).
  pose proof (ndigits_le A prec ltac:(lia)) as HnA.
  pose proof (ndigits_pos A). pose proof (ndigits_pos B).
  pose proof (ndigits_spec A ltac:(lia)) as [_ HAhi].
  pose proof (ndigits_spec B ltac:(lia)) as [HBlo _].
  set (shift := ndigits B - ndigits A + prec + 1).
  assert (Hsh : 2 <= shift) by (unfold shift, prec in *; lia).
  replace (0 <=? shift) with true by (symmetry; apply Z.leb_le; lia).
  rewrite div_eucl_split.
  assert (HP : 0 < 10 ^ shift) by (apply Z.pow_pos_nonneg; lia).
  assert (Hq : 0 <= A * 10 ^ shift / B < 10 ^ 30).
  { split; [apply Z.div_pos; lia|]. apply Z.div_lt_upper_bound; [lia|].
    assert (E1 : 10 ^ ndigits A * 10 ^ shift = 10 ^ (ndigits B - 1) * 10 ^ 30)
      by (rewrite <- !Z.pow_add_r by lia; f_equal; unfold shift, prec; lia).
    assert (A * 10 ^ shift < 10 ^ ndigits A * 10 ^ shift)
      by (apply Z.mul_lt_mono_pos_r; lia).
    assert (10 ^ (ndigits B - 1) * 10 ^ 30 <= B * 10 ^ 30)
      by (apply Z.mul_le_mono_nonneg_r; [lia|exact HBlo]).
    lia. }
  set (coeff := A * 10 ^ shift / B) in *.
  destruct (A * 10 ^ shift mod B =? 0).
  - pose proof (strip_zeros_inv (Z.to_nat (0 - 0 - (0 - 0 - shift))) coeff
                  (0 - 0 - shift) ltac:(lia)) as Hi.
    destruct (strip_zeros _ _ _) as [c' e'].
    apply fix_dec_no_overflow; [lia|].
    pose proof (ndigits_le' c' 30 ltac:(lia) ltac:(lia)).
    unfold Etop, Emax, prec in *. lia.
  - assert (Hc1 : 0 <= (if coeff mod 5 =? 0 then coeff + 1 else coeff) < 10 ^ 31)
      by (destruct (coeff mod 5 =? 0); lia).
    apply fix_dec_no_overflow; [lia|].
    pose proof (ndigits_le' _ 31 Hc1 ltac:(lia)).
    unfold Etop, Emax, prec in *. lia.
Qed.

Lemma convert_zero_divisor (raw mult : Z) :
  Z.abs (raw * mult) < 10 ^ prec ->
  convert raw mult 0 =
    inl (if raw * mult =? 0 then DivisionUndefined else DivisionByZero).
Proof.
  intros Hp. unfold convert. rewrite mul_of_int_exact by exact Hp.
  unfold div, of_int. cbn [dsign dint dexp Z.abs Z.eqb].
  destruct (Z.eqb_spec (Z.abs (raw * mult)) 0), (Z.eqb_spec (raw * mult) 0);
    reflexivity || lia.
Qed.

(** X. [Decimal(raw) * multiplier / divisor] raises a decimal signal
    exactly when the divisor is 0: [DivisionUndefined] (Python's
    [InvalidOperation]) for 0/0 and [DivisionByZero] otherwise; any nonzero
    divisor gives a value (for products below 10^28). *)
Theorem convert_fails_iff_zero_divisor (raw mult dv : Z) (s : Signal) :
  Z.abs (raw * mult) < 10 ^ prec ->
  (convert raw mult dv = inl s <->
   dv = 0 /\ s = (if raw * mult =? 0 then DivisionUndefined else DivisionByZero)).
Proof.
  intros Hp. split.
  - intro H. destruct (Z.eq_dec dv 0) as [->|Hn].
    + rewrite convert_zero_divisor in H by exact Hp. injection H as <-. now split.
    + exfalso. unfold convert in H. rewrite mul_of_int_exact in H by exact Hp.
      destruct (div_no_error (xorb (raw <? 0) (mult <? 0)) (Z.abs (raw * mult)) dv
                  ltac:(lia) Hn) as [d Hd].
      rewrite Hd in H. discriminate.
  - intros [-> ->]. apply convert_zero_divisor, Hp.
Qed.

Lemma convert_fails_iff_zero_divisor_witness :
  convert 5 1 0 = inl DivisionByZero /\ convert 0 7 0 = inl DivisionUndefined.
Proof.
  split.
  - apply (proj2 (convert_fails_iff_zero_divisor 5 1 0 DivisionByZero
                    ltac:(vm_compute; reflexivity))).
    split; reflexivity.
  - apply (proj2 (convert_fails_iff_zero_divisor 0 7 0 DivisionUndefined
                    ltac:(vm_compute; reflexivity))).
    split; reflexivity.
Defined.

(** X. Every value [convert] returns has a coefficient of at most 28
    digits (the default context's precision), whatever the inputs. *)
Theorem convert_precision (raw mult dv : Z) (d : Dec) :
  convert raw mult dv = inr d -> 0 <= dint d < 10 ^ prec.
Proof.
  unfold convert. destruct (mul (of_int raw) mult) as [sg|p] eqn:Hm; [discriminate|].
  intro H. destruct (mul_sign_bound (of_int raw) mult p ltac:(cbn; lia) Hm) as [_ Hp].
  exact (proj2 (div_sign_bound p dv d ltac:(lia) H)).
Qed.

Lemma convert_precision_witness :
  0 <= dint (mkDec false 3333333333333333333333333333 (-28)) < 10 ^ prec.
Proof.
  apply (convert_precision 1 1 3). vm_compute. reflexivity.
Defined.

(** X. The sign of a converted reading is the exclusive or of the signs of
    the raw value, the multiplier and the divisor (a negative demand stays
    negative; a zero keeps the sign, as Python's [-0]). *)
Theorem convert_sign (raw mult dv : Z) (d : Dec) :
  convert raw mult dv = inr d ->
  dsign d = xorb (xorb (raw <? 0) (mult <? 0)) (dv <? 0).
Proof.
  unfold convert. destruct (mul (of_int raw) mult) as [sg|p] eqn:Hm; [discriminate|].
  intro H. destruct (mul_sign_bound (of_int raw) mult p ltac:(cbn; lia) Hm) as [Hs Hb].
  rewrite (proj1 (div_sign_bound p dv d ltac:(lia) H)), Hs. reflexivity.
Qed.

Lemma convert_sign_witness :
  dsign (mkDec true 1234 (-3)) = xorb (xorb (-1234 <? 0) (1 <? 0)) (1000 <? 0).
Proof.
  apply (convert_sign (-1234) 1 1000). vm_compute. reflexivity.
Defined.

Lemma convert_exact_case (raw mult dv m k : Z) :
  Z.abs (raw * mult) < 10 ^ prec -> 0 < Z.abs dv < 10 ^ prec ->
  0 <= k -> Z.abs m < 10 ^ prec -> raw * mult * 10 ^ k = m * dv ->
  exists d, convert raw mult dv = inr d /\ represents d (raw * mult) dv /\
            0 <= dint d < 10 ^ prec.
Proof.
  intros Hp Hd Hk Hm Hq. unfold convert. rewrite mul_of_int_exact by exact Hp.
  assert (HY : 0 < 10 ^ k) by (apply Z.pow_pos_nonneg; lia).
  assert (Habs : Z.abs (raw * mult) * 10 ^ k = Z.abs m * Z.abs dv).
  { rewrite <- (Z.abs_eq (10 ^ k)) by lia. rewrite <- !Z.abs_mul. now f_equal. }
  destruct (div_exact (xorb (raw <? 0) (mult <? 0)) (Z.abs (raw * mult)) dv
              (Z.abs m) k ltac:(lia) Hd Hk ltac:(lia) Habs)
    as (c & e & Hdiv & He & Hce).
  exists (mkDec (xorb (xorb (raw <? 0) (mult <? 0)) (dv <? 0)) c e).
  assert (HT : 0 < 10 ^ (e + k)) by (apply Z.pow_pos_nonneg; lia).
  split; [exact Hdiv|]. split.
  - unfold represents, signed_int. cbn [dsign dint dexp].
    replace (Z.max e 0) with 0 by lia. replace (Z.max (- e) 0) with (- e) by lia.
    rewrite Z.pow_0_r, Z.mul_1_r.
    assert (HU : 10 ^ (- e) * 10 ^ (e + k) = 10 ^ k)
      by (rewrite <- Z.pow_add_r by lia; f_equal; lia).
    apply (Z.mul_reg_r _ _ (10 ^ (e + k))); [lia|].
    transitivity ((if xorb (xorb (raw <? 0) (mult <? 0)) (dv <? 0)
                   then - Z.abs m else Z.abs m) * dv).
    { rewrite <- Hce. destruct (xorb (xorb (raw <? 0) (mult <? 0)) (dv <? 0)); ring. }
    transitivity (raw * mult * 10 ^ k); [|rewrite <- HU; ring].
    rewrite Hq. pose proof (product_sign raw mult) as Hs.
    set (P := raw * mult) in *.
    destruct (xorb (raw <? 0) (mult <? 0)), (Z.ltb_spec dv 0);
      cbn [xorb]; destruct (Z.le_gt_cases 0 m);
      rewrite ?(Z.abs_eq m), ?(Z.abs_neq m) by lia; nia.
  - cbn [dint]. nia.
Qed.

(** C6 (amended). The conversion [Decimal(raw) * multiplier / divisor] is
    done in Python decimal arithmetic (default context: 28 significant
    digits, round-half-even); the payload carries this decimal, and it is
    turned into a float only when the JSON state message is built. When
    |raw * multiplier| < 10^28 and 0 < |divisor| < 10^28 the conversion
    always returns a decimal with a coefficient below 10^28, and that
    decimal is exactly raw * multiplier / divisor if and only if the
    quotient is m / 10^k for some k >= 0 and |m| < 10^28; any other
    quotient (1 / 3, say) is not returned exactly. *)
Theorem convert_exact_when_representable (raw mult dv : Z) :
  Z.abs (raw * mult) < 10 ^ prec -> 0 < Z.abs dv < 10 ^ prec ->
  (exists d, convert raw mult dv = inr d /\ 0 <= dint d < 10 ^ prec) /\
  (forall d, convert raw mult dv = inr d ->
     (represents d (raw * mult) dv <->
      exists m k, 0 <= k /\ Z.abs m < 10 ^ prec /\ raw * mult * 10 ^ k = m * dv)).
Proof.
  intros Hp Hd.
  assert (Hconv : forall d, convert raw mult dv = inr d ->
            dsign d = xorb (xorb (raw <? 0) (mult <? 0)) (dv <? 0) /\
            0 <= dint d < 10 ^ prec).
  { intros d H. unfold convert in H. rewrite mul_of_int_exact in H by exact Hp.
    refine (div_sign_bound _ dv d _ H). cbn [dint]. lia. }
  split.
  { unfold convert. rewrite mul_of_int_exact by exact Hp.
    destruct (div_no_error (xorb (raw <? 0) (mult <? 0)) (Z.abs (raw * mult)) dv
                ltac:(lia) ltac:(lia)) as [d Hdiv].
    exists d. split; [exact Hdiv|].
    apply (Hconv d). unfold convert. rewrite mul_of_int_exact by exact Hp. exact Hdiv. }
  intros d Hdv. split.
  - intro Hr. destruct (Hconv d Hdv) as [_ Hb].
    unfold represents in Hr. destruct (Z.le_gt_cases 0 (dexp d)) as [He|He].
    + exists (signed_int d * 10 ^ dexp d), 0.
      replace (Z.max (dexp d) 0) with (dexp d) in Hr by lia.
      replace (Z.max (- dexp d) 0) with 0 in Hr by lia.
      rewrite Z.pow_0_r, Z.mul_1_r in Hr. rewrite Z.pow_0_r, Z.mul_1_r.
      split; [lia|]. split; [|lia].
      set (M := signed_int d * 10 ^ dexp d) in *.
      assert (HA : Z.abs M * Z.abs dv = Z.abs (raw * mult))
        by (rewrite <- Z.abs_mul; f_equal; lia).
      nia.
    + exists (signed_int d), (- dexp d).
      replace (Z.max (dexp d) 0) with 0 in Hr by lia.
      replace (Z.max (- dexp d) 0) with (- dexp d) in Hr by lia.
      rewrite Z.pow_0_r, Z.mul_1_r in Hr.
      split; [lia|]. split; [|lia].
      unfold signed_int. destruct (dsign d); lia.
  - intros (m & k & Hk & Hm & Hq).
    destruct (convert_exact_case raw mult dv m k Hp Hd Hk Hm Hq) as (d' & Hd' & Hr & _).
    rewrite Hdv in Hd'. injection Hd' as <-. exact Hr.
Qed.

Lemma convert_exact_when_representable_witness :
  represents (mkDec false 1234 (-3)) (1234 * 1) 1000 /\
  convert 1234 1 1000 = inr (mkDec false 1234 (-3)).
Proof.
  assert (Hc : convert 1234 1 1000 = inr (mkDec false 1234 (-3)))
    by (vm_compute; reflexivity).
  split; [|exact Hc].
  destruct (convert_exact_when_representable 1234 1 1000
              ltac:(vm_compute; reflexivity) ltac:(vm_compute; split; reflexivity))
    as [_ H].
  apply (proj2 (H _ Hc)). exists 1234, 3. vm_compute.
  split; [discriminate|]. split; reflexivity.
Defined.

(** ** Whole runs, case by case *)

Lemma append_cancel_l (p a b : string) : (p ++ a)%string = (p ++ b)%string -> a = b.
Proof. induction p as [|c p IH]; cbn; [auto|]. intro H. injection H. exact IH. Qed.

Lemma append_assoc_str (a b c : string) : ((a ++ b) ++ c)%string = (a ++ (b ++ c))%string.
Proof. induction a as [|x a IH]; cbn; [reflexivity|]. now rewrite IH. Qed.

Lemma execute_cases (cfg : Config) (env : Env) (fuel : nat) :
  (exists di idr,
     start_serial_answer env 0 = true /\ device_info_answer env = Some di /\
     instantaneous_demand_answer env 0 = Some idr /\ broker_connect_ok env = true /\
     let p := mk_prefix cfg (meter_mac idr) in
     execute cfg env fuel =
       polling_loop cfg env fuel p 0
         (mkWorld 1 0 1 0 (Some p)
            (setup_head cfg p ++ setup_mid cfg p ++ setup_tail (meter_mac idr) p di))) \/
  (start_serial_answer env 0 = false /\
   execute cfg env fuel =
     (mkWorld 1 0 0 0 None [EvStartSerial (emu_serial cfg) false],
      inl (ValueError "Failed to initialize device"))) \/
  (start_serial_answer env 0 = true /\
   (device_info_answer env = None \/ instantaneous_demand_answer env 0 = None) /\
   execute cfg env fuel =
     (mkWorld 1 0 1 0 None
        [EvStartSerial (emu_serial cfg) true; EvSetScheduleDefault; EvGetDeviceInfo;
         EvGetInstantaneousDemand],
      inl AttributeError)) \/
  (exists di idr,
     start_serial_answer env 0 = true /\ device_info_answer env = Some di /\
     instantaneous_demand_answer env 0 = Some idr /\ broker_connect_ok env = false /\
     execute cfg env fuel =
       (mkWorld 1 0 1 0 None
          (setup_head cfg (mk_prefix cfg (meter_mac idr)) ++
           [EvConnect (mqtt_hostname cfg) (mqtt_port cfg) false]),
        inl ConnectionError)).
Proof.
  unfold execute, run.
  destruct (start_serial_answer env 0) eqn:Hs.
  2:{ right. left. split; [reflexivity|].
      unfold setup, bind at 1 2. cbn. now rewrite Hs. }
  destruct (instantaneous_demand_answer env 0) as [idr|] eqn:Hid.
  2:{ right. right. left. split; [reflexivity|]. split; [now right|].
      unfold setup, bind at 1 2. cbn. rewrite Hs. cbn. now rewrite Hid. }
  destruct (device_info_answer env) as [di|] eqn:Hdi.
  2:{ right. right. left. split; [reflexivity|]. split; [now left|].
      unfold setup, bind at 1 2. cbn. rewrite Hs. cbn. now rewrite Hid, Hdi. }
  destruct (broker_connect_ok env) eqn:Hc.
  2:{ right. right. right. exists di, idr. repeat (split; [reflexivity|]).
      unfold setup, connect, bind at 1 2. cbn. rewrite Hs. cbn. rewrite Hid, Hdi.
      cbn. now rewrite Hc. }
  left. exists di, idr. repeat (split; [reflexivity|]). cbv zeta.
  set (p := mk_prefix cfg (meter_mac idr)).
  assert (E : setup cfg env initial_world =
    (mkWorld 1 0 1 0 (Some p)
       (setup_head cfg p ++ setup_mid cfg p ++ setup_tail (meter_mac idr) p di),
     inr p)).
  { unfold setup, connect. cbn. rewrite Hs. cbn. rewrite Hid, Hdi. cbn.
    now rewrite Hc. }
  now erewrite bind_inr by exact E.
Qed.

Lemma emits_broker_activity (P : Event -> Prop) (env : Env) (p : string) :
  P EvBrokerConnected -> P (EvPublish (availability_topic p) (PStr "online") true) ->
  forall w, on_connect_cb w = Some p ->
  on_connect_cb (fst (broker_activity env w)) = Some p /\
  exists tr, trace (fst (broker_activity env w)) = trace w ++ tr /\ Forall P tr /\
             snd (broker_activity env w) = inr tt.
Proof.
  intros HB HO w Hw. rewrite broker_activity_spec. cbn [fst snd on_connect_cb trace].
  split; [exact Hw|]. eexists. split; [reflexivity|]. split; [|reflexivity].
  apply Forall_forall. intros x Hx. rewrite Hw in Hx. unfold broker_events in Hx.
  apply in_concat_repeat in Hx. destruct Hx as [<-|[<-|[]]]; assumption.
Qed.

(** A property of every event of every cycle holds of the whole loop. *)
Lemma polling_loop_forall (P : Event -> Prop) (cfg : Config) (env : Env) (p : string) :
  P EvBrokerConnected -> P (EvPublish (availability_topic p) (PStr "online") true) ->
  (forall u, emits P (poll_once cfg env p u)) ->
  forall n u w, on_connect_cb w = Some p ->
  exists tr, trace (fst (polling_loop cfg env n p u w)) = trace w ++ tr /\ Forall P tr.
Proof.
  intros HB HO Hpoll. induction n as [|n IH]; intros u w Hw.
  - exists []. cbn. now rewrite app_nil_r.
  - cbn [polling_loop]. unfold bind at 1. unfold cycle, bind at 1.
    destruct (emits_broker_activity P env p HB HO w Hw) as (Hw1 & tr1 & Htr1 & HF1 & Hr1).
    destruct (broker_activity env w) as [w1 r1]. cbn [fst snd] in *. subst r1.
    destruct (Hpoll u w1) as (Hw2 & tr2 & Htr2 & HF2).
    destruct (poll_once cfg env p u w1) as [w2 [e|a]]; cbn [fst] in *.
    + exists (tr1 ++ tr2). rewrite Htr2, Htr1, app_assoc. split; [reflexivity|].
      now apply Forall_app.
    + destruct (IH a w2 ltac:(congruence)) as (tr3 & Htr3 & HF3).
      exists (tr1 ++ tr2 ++ tr3). rewrite Htr3, Htr2, Htr1, !app_assoc.
      split; [reflexivity|]. rewrite <- app_assoc. now apply Forall_app; split; [|apply Forall_app].
Qed.

Lemma emits_bind_get_cs {A} (P : Event -> Prop) (env : Env)
  (k : option CurrentSummationDelivered -> M A) :
  P EvGetCurrentSummation ->
  (forall n, emits P (k (current_summation_answer env n))) ->
  emits P (bind (get_current_summation_delivered env) k).
Proof.
  intros HP Hk w. unfold bind, get_current_summation_delivered.
  destruct (Hk (n_cs w) (mkWorld (n_start w) (S (n_cs w)) (n_id w) (n_cycle w)
                 (on_connect_cb w) (trace w ++ [EvGetCurrentSummation])))
    as (Hcb & tr & Htr & HF).
  cbn [on_connect_cb trace] in Hcb, Htr. split; [exact Hcb|].
  exists (EvGetCurrentSummation :: tr). rewrite Htr, <- app_assoc. split; [reflexivity|].
  now constructor.
Qed.

Lemma emits_bind_get_id {A} (P : Event -> Prop) (env : Env)
  (k : option InstantaneousDemand -> M A) :
  P EvGetInstantaneousDemand ->
  (forall n, emits P (k (instantaneous_demand_answer env n))) ->
  emits P (bind (get_instantaneous_demand env) k).
Proof.
  intros HP Hk w. unfold bind, get_instantaneous_demand.
  destruct (Hk (n_id w) (mkWorld (n_start w) (n_cs w) (S (n_id w)) (n_cycle w)
                 (on_connect_cb w) (trace w ++ [EvGetInstantaneousDemand])))
    as (Hcb & tr & Htr & HF).
  cbn [on_connect_cb trace] in Hcb, Htr. split; [exact Hcb|].
  exists (EvGetInstantaneousDemand :: tr). rewrite Htr, <- app_assoc. split; [reflexivity|].
  now constructor.
Qed.

Lemma emits_bind_lift_decimal {A B} (P : Event -> Prop) (r : Signal + A) (k : A -> M B) :
  (forall v, r = inr v -> emits P (k v)) -> emits P (bind (lift_decimal r) k).
Proof.
  intros Hk. destruct r as [sg|v].
  - intro w. unfold bind, lift_decimal, raise. cbn [fst].
    split; [reflexivity|]. exists []. now rewrite app_nil_r.
  - exact (Hk v eq_refl).
Qed.

Lemma topic_neq (p a b : string) : a <> b -> (p ++ a)%string <> (p ++ b)%string.
Proof. intros Hab H. apply Hab, (append_cancel_l p), H. Qed.

Lemma poll_once_readings (cfg : Config) (env : Env) (p : string) (u : Z) :
  emits (reading_of_answer env p) (poll_once cfg env p u).
Proof.
  assert (Hh : forall v, emits (reading_of_answer env p) (handle_nonresponse cfg env v))
    by (intros; solve_emits; cbn; auto).
  unfold poll_once. apply emits_bind_get_cs; [exact I|intro k0].
  destruct (genuine_cs (current_summation_answer env k0)) as [csr|] eqn:Hg; [|apply Hh].
  cbv zeta. apply emits_bind_lift_decimal. intros v Hv.
  apply emits_bind_get_id; [exact I|intro k1].
  destruct (genuine_id (instantaneous_demand_answer env k1)) as [idr|] eqn:Hg2; [|apply Hh].
  apply emits_bind_lift_decimal. intros v2 Hv2.
  apply emits_bind; [apply emits_emit|intros _].
  { split; intro Ht.
    - exists k0, csr, v. auto.
    - exfalso. revert Ht. apply topic_neq. discriminate. }
  apply emits_bind; [apply emits_emit|intros _].
  { split; intro Ht.
    - exfalso. revert Ht. apply topic_neq. discriminate.
    - exists k1, idr, v2. auto. }
  apply emits_bind; [apply emits_emit; exact I|intros _]. apply emits_ret.
Qed.

(** A property of every event of the startup, of the broker's reconnections
    and of every cycle holds of every run. *)
Lemma execute_forall (P : Event -> Prop) (cfg : Config) (env : Env) (fuel : nat) :
  let p := run_prefix cfg env in
  (forall u, emits P (poll_once cfg env p u)) ->
  P EvBrokerConnected -> P (EvPublish (availability_topic p) (PStr "online") true) ->
  Forall P (setup_head cfg p) -> Forall P (setup_mid cfg p) ->
  P (EvStartSerial (emu_serial cfg) false) ->
  P (EvConnect (mqtt_hostname cfg) (mqtt_port cfg) false) ->
  (forall di idr, device_info_answer env = Some di ->
     instantaneous_demand_answer env 0 = Some idr ->
     Forall P (setup_tail (meter_mac idr) p di)) ->
  Forall P (trace (fst (execute cfg env fuel))).
Proof.
  cbv zeta. intros Hpoll HB HO Hh Hm Hs0 Hc0 Ht.
  destruct (execute_cases cfg env fuel)
    as [(di & idr & Hs & Hdi & Hid & Hc & E) | [(Hs & E) | [(Hs & Hn & E) |
        (di & idr & Hs & Hdi & Hid & Hc & E)]]].
  - assert (Hp : run_prefix cfg env = mk_prefix cfg (meter_mac idr))
      by (unfold run_prefix; now rewrite Hid).
    specialize (Ht di idr Hdi Hid). rewrite Hp in *. cbv zeta in E. rewrite E.
    set (p := mk_prefix cfg (meter_mac idr)) in *.
    destruct (polling_loop_forall P cfg env p HB HO Hpoll fuel 0
                (mkWorld 1 0 1 0 (Some p)
                   (setup_head cfg p ++ setup_mid cfg p ++ setup_tail (meter_mac idr) p di))
                eq_refl) as (tr & Htr & HF).
    rewrite Htr. cbn [trace].
    repeat (apply Forall_app; split); assumption.
  - rewrite E. cbn [fst trace]. now constructor.
  - rewrite E. cbn [fst trace]. unfold setup_head in Hh.
    inversion Hh as [|? ? Ha Hh1]; inversion Hh1 as [|? ? Hb Hh2];
      inversion Hh2 as [|? ? Hc Hh3]; inversion Hh3 as [|? ? Hd _].
    now repeat constructor.
  - assert (Hp : run_prefix cfg env = mk_prefix cfg (meter_mac idr))
      by (unfold run_prefix; now rewrite Hid).
    rewrite Hp in *. rewrite E. cbn [fst trace].
    apply Forall_app. split; [exact Hh|]. now constructor.
Qed.

Ltac forall_list tac :=
  repeat (apply Forall_cons; [tac|]); apply Forall_nil.

Lemma startup_parts (env : Env) :
  startup_ok env = true ->
  start_serial_answer env 0 = true /\
  (exists di, device_info_answer env = Some di) /\
  (exists idr, instantaneous_demand_answer env 0 = Some idr) /\
  broker_connect_ok env = true.
Proof.
  unfold startup_ok. intro H.
  apply andb_prop in H as [H H4]. apply andb_prop in H as [H H3].
  apply andb_prop in H as [H1 H2].
  destruct (device_info_answer env), (instantaneous_demand_answer env 0);
    try discriminate; eauto 6.
Qed.

Lemma setup_no_state (cfg : Config) (p mac : string) (di : DeviceInfo) :
  Forall (fun e => e <> EvGetCurrentSummation /\ is_state_publish p e = false)
    (setup_head cfg p ++ setup_mid cfg p ++ setup_tail mac p di).
Proof.
  unfold setup_head, setup_mid, setup_tail. cbn [app].
  forall_list ltac:(split; [discriminate|topics; reflexivity]).
Qed.

Lemma broker_events_no_state (p : string) (n : nat) :
  Forall (fun e => e <> EvGetCurrentSummation /\ is_state_publish p e = false)
    (broker_events n (Some p)).
Proof.
  apply Forall_forall. intros x Hx. unfold broker_events in Hx.
  apply in_concat_repeat in Hx. destruct Hx as [<-|[<-|[]]];
    (split; [discriminate|topics; reflexivity]).
Qed.

Lemma convert_zero_divisor_signals (raw mult : Z) :
  exists s, convert raw mult 0 = inl s /\
    (Z.abs (raw * mult) < 10 ^ prec ->
     s = if raw * mult =? 0 then DivisionUndefined else DivisionByZero).
Proof.
  destruct (Z_lt_le_dec (Z.abs (raw * mult)) (10 ^ prec)) as [Hp|Hp].
  - eexists. split; [apply (convert_zero_divisor _ _ Hp)|]. reflexivity.
  - unfold convert. destruct (mul (of_int raw) mult) as [s|p].
    + exists s. split; [reflexivity|lia].
    + unfold div, of_int. cbn [dint dsign dexp Z.abs Z.eqb].
      destruct (dint p =? 0); (eexists; split; [reflexivity|lia]).
Qed.

Lemma poll_once_zero_divisor (cfg : Config) (env : Env) (p : string) (u : Z) (w : World)
  (r : CurrentSummationDelivered) :
  genuine_cs (current_summation_answer env (n_cs w)) = Some r ->
  cs_divisor r = 0 ->
  exists s,
    poll_once cfg env p u w =
      (mkWorld (n_start w) (S (n_cs w)) (n_id w) (n_cycle w) (on_connect_cb w)
         (trace w ++ [EvGetCurrentSummation]), inl (DecimalSignal s)) /\
    (Z.abs (summation_delivered r * cs_multiplier r) < 10 ^ prec ->
     s = if summation_delivered r * cs_multiplier r =? 0
         then DivisionUndefined else DivisionByZero).
Proof.
  intros Hg Hd.
  destruct (convert_zero_divisor_signals (summation_delivered r) (cs_multiplier r))
    as (s & Hs & Hb).
  exists s. split; [|exact Hb].
  unfold poll_once, bind at 1, get_current_summation_delivered.
  cbn beta iota. rewrite Hg. cbv zeta. rewrite Hd, Hs. reflexivity.
Qed.

Lemma cycle_nonresponse (cfg : Config) (env : Env) (p : string) (u : Z) (w : World) :
  on_connect_cb w = Some p ->
  genuine_cs (current_summation_answer env (n_cs w)) = None ->
  exists v w1, cycle cfg env p u w = (w1, inr v) /\ n_cs w1 = S (n_cs w) /\
    on_connect_cb w1 = Some p /\
    exists tr, trace w1 = trace w ++ tr /\
               Forall (fun e => is_state_publish p e = false) tr.
Proof.
  intros Hw Hg. rewrite cycle_unfold.
  rewrite poll_once_nonresponse by (cbn [n_cs]; exact Hg).
  rewrite handle_nonresponse_spec. cbn [n_start n_cs n_id n_cycle on_connect_cb trace].
  rewrite Hw.
  assert (HB := broker_events_no_state p (broker_reconnects env (n_cycle w))).
  destruct (CLIENT_UNRESPONSIVE_MAX <? u + 1);
    (do 2 eexists; split; [reflexivity|]; cbn [n_cs on_connect_cb trace];
     split; [reflexivity|]; split; [reflexivity|];
     eexists; split; [rewrite <- !app_assoc; reflexivity|];
     apply Forall_app; split;
     [eapply Forall_impl; [|exact HB]; intros e He; apply He|
      forall_list ltac:(reflexivity)]).
Qed.

(** [j] cycles without a genuine CurrentSummation answer publish no
    reading and leave the loop [j] requests further on. *)
Lemma loop_nonresponses_skip (cfg : Config) (env : Env) (p : string) (m : nat) :
  forall j u w, on_connect_cb w = Some p ->
  (forall i, (n_cs w <= i < n_cs w + j)%nat ->
     genuine_cs (current_summation_answer env i) = None) ->
  exists v w', polling_loop cfg env (j + m) p u w = polling_loop cfg env m p v w' /\
    n_cs w' = (n_cs w + j)%nat /\ on_connect_cb w' = Some p /\
    exists tr, trace w' = trace w ++ tr /\
               Forall (fun e => is_state_publish p e = false) tr.
Proof.
  induction j as [|j IH]; intros u w Hw Hg.
  - exists u, w. rewrite Nat.add_0_r. split; [reflexivity|]. split; [reflexivity|].
    split; [exact Hw|]. exists []. now rewrite app_nil_r.
  - destruct (cycle_nonresponse cfg env p u w Hw (Hg (n_cs w) ltac:(lia)))
      as (v1 & w1 & Hc & Hn1 & Hw1 & tr1 & Htr1 & HF1).
    destruct (IH v1 w1 Hw1 ltac:(intros i Hi; apply Hg; lia))
      as (v & w' & Hl & Hn' & Hw' & tr2 & Htr2 & HF2).
    exists v, w'. split.
    { cbn [Nat.add polling_loop]. unfold bind at 1. rewrite Hc. exact Hl. }
    split; [lia|]. split; [exact Hw'|].
    exists (tr1 ++ tr2). rewrite Htr2, Htr1, app_assoc. split; [reflexivity|].
    now apply Forall_app.
Qed.

(** X. A divisor of 0 in the first genuine CurrentSummation answer of a
    run that started up (after any number of unanswered requests) is fatal:
    the conversion at line 167 raises a decimal signal ([DivisionByZero],
    or [DivisionUndefined] for 0/0, when the product has at most 28 digits),
    [main] exits with status 1, and the run ends right after that request,
    having published no reading. *)
Theorem zero_divisor_reading_exits (cfg : Config) (env : Env) (k n : nat)
  (r : CurrentSummationDelivered) :
  startup_ok env = true ->
  (forall i, (i < k)%nat -> genuine_cs (current_summation_answer env i) = None) ->
  genuine_cs (current_summation_answer env k) = Some r ->
  cs_divisor r = 0 ->
  (exists s, snd (execute cfg env (k + S n)) = inl (DecimalSignal s) /\
     (Z.abs (summation_delivered r * cs_multiplier r) < 10 ^ prec ->
      s = if summation_delivered r * cs_multiplier r =? 0
          then DivisionUndefined else DivisionByZero)) /\
  main_exit (snd (execute cfg env (k + S n))) = Some 1 /\
  exists pre, trace (fst (execute cfg env (k + S n))) = pre ++ [EvGetCurrentSummation] /\
    Forall (fun e => is_state_publish (run_prefix cfg env) e = false) pre.
Proof.
  intros Hok Hpre Hg Hd.
  destruct (startup_parts env Hok) as (Hs0 & [di0' Hdi0] & [idr0 Hid0] & Hc0).
  destruct (execute_cases cfg env (k + S n))
    as [(di & idr & Hs & Hdi & Hid & Hc & E) | [(Hs & _) | [(Hs & [Hn|Hn] & _) |
        (di & idr & Hs & Hdi & Hid & Hc & _)]]]; try congruence.
  assert (Hp : run_prefix cfg env = mk_prefix cfg (meter_mac idr))
    by (unfold run_prefix; now rewrite Hid).
  rewrite Hp. cbv zeta in E. set (p := mk_prefix cfg (meter_mac idr)) in *.
  set (w0 := mkWorld 1 0 1 0 (Some p)
               (setup_head cfg p ++ setup_mid cfg p ++ setup_tail (meter_mac idr) p di))
    in *.
  destruct (loop_nonresponses_skip cfg env p (S n) k 0 w0 eq_refl
              ltac:(intros i Hi; apply Hpre; cbn [n_cs w0] in Hi; lia))
    as (v & wk & Hl & Hnk & Hwk & tr & Htr & HF).
  cbn [n_cs w0] in Hnk.
  destruct (poll_once_zero_divisor cfg env p v
              (mkWorld (n_start wk) (n_cs wk) (n_id wk) (S (n_cycle wk)) (on_connect_cb wk)
                 (trace wk ++ broker_events (broker_reconnects env (n_cycle wk))
                                             (on_connect_cb wk))) r
              ltac:(cbn [n_cs]; rewrite Hnk; exact Hg) Hd) as (s & Hpoll & Hb).
  assert (E2 : execute cfg env (k + S n) =
    (mkWorld (n_start wk) (S (n_cs wk)) (n_id wk) (S (n_cycle wk)) (Some p)
       ((trace wk ++ broker_events (broker_reconnects env (n_cycle wk)) (Some p)) ++
        [EvGetCurrentSummation]), inl (DecimalSignal s))).
  { rewrite E, Hl. cbn [polling_loop]. unfold bind at 1. rewrite cycle_unfold, Hpoll.
    cbn [n_start n_cs n_id n_cycle on_connect_cb trace]. rewrite Hwk. reflexivity. }
  rewrite E2. cbn [fst snd trace main_exit].
  split; [exists s; split; [reflexivity|exact Hb]|]. split; [reflexivity|].
  eexists. split; [reflexivity|].
  rewrite Htr. cbn [trace w0].
  apply Forall_app. split; [apply Forall_app; split; [|exact HF]|].
  - eapply Forall_impl; [|apply (setup_no_state cfg p (meter_mac idr) di)].
    intros e He; apply He.
  - eapply Forall_impl; [|apply broker_events_no_state]. intros e He; apply He.
Qed.

Lemma zero_divisor_reading_exits_witness :
  snd (execute cfg0 env_zero_divisor 3) = inl (DecimalSignal DivisionByZero) /\
  main_exit (snd (execute cfg0 env_zero_divisor 3)) = Some 1.
Proof.
  destruct (zero_divisor_reading_exits cfg0 env_zero_divisor 1 1
              (mkCurrentSummationDelivered (Some "0x2a0f3c1b"%string) 12345 1 0)
              eq_refl
              ltac:(intros i Hi; destruct i; [reflexivity|lia])
              eq_refl eq_refl)
    as ((s & H1 & Hs) & H2 & _).
  rewrite (Hs ltac:(vm_compute; reflexivity)) in H1.
  split; [exact H1|exact H2].
Defined.

(** X. When the device answers the first [start_serial] but the startup
    fails later, [main] exits with status 1 and nothing is ever published:
    a missing DeviceInfo or initial InstantaneousDemand ([.meter_mac] on
    [None], line 75, or the dereferences at lines 78-82) raises
    [AttributeError] after the four driver calls, before any last will or
    connect; a broker that cannot be reached raises [ConnectionError] at
    line 99, after the last will was set. *)
Theorem startup_failure_modes (cfg : Config) (env : Env) (fuel : nat) :
  start_serial_answer env 0 = true -> startup_ok env = false ->
  main_exit (snd (execute cfg env fuel)) = Some 1 /\
  (forall t pl r, ~ In (EvPublish t pl r) (trace (fst (execute cfg env fuel)))) /\
  ((device_info_answer env = None \/ instantaneous_demand_answer env 0 = None) ->
   execute cfg env fuel =
     (mkWorld 1 0 1 0 None
        [EvStartSerial (emu_serial cfg) true; EvSetScheduleDefault; EvGetDeviceInfo;
         EvGetInstantaneousDemand],
      inl AttributeError)) /\
  (forall di idr, device_info_answer env = Some di ->
   instantaneous_demand_answer env 0 = Some idr ->
   execute cfg env fuel =
     (mkWorld 1 0 1 0 None
        [EvStartSerial (emu_serial cfg) true; EvSetScheduleDefault; EvGetDeviceInfo;
         EvGetInstantaneousDemand;
         EvWillSet (availability_topic (mk_prefix cfg (meter_mac idr))) (PStr "offline") true;
         EvConnect (mqtt_hostname cfg) (mqtt_port cfg) false],
      inl ConnectionError)).
Proof.
  intros Hs0 Hok.
  destruct (execute_cases cfg env fuel)
    as [(di & idr & Hs & Hdi & Hid & Hc & E) | [(Hs & E) | [(Hs & Hn & E) |
        (di & idr & Hs & Hdi & Hid & Hc & E)]]].
  - unfold startup_ok in Hok. rewrite Hs, Hdi, Hid, Hc in Hok. discriminate.
  - congruence.
  - rewrite E. cbn [fst snd trace main_exit].
    split; [reflexivity|]. split; [|split; [reflexivity|]].
    + intros t pl r Hin. cbn in Hin. repeat destruct Hin as [Hin|Hin]; try discriminate.
      contradiction.
    + intros di idr Hdi Hid. exfalso. destruct Hn; congruence.
  - rewrite E. cbn [fst snd trace main_exit].
    split; [reflexivity|]. split; [|split].
    + intros t pl r Hin. cbn in Hin. repeat destruct Hin as [Hin|Hin]; try discriminate.
      contradiction.
    + intros [Hn|Hn]; congruence.
    + intros di' idr' Hdi' Hid'. rewrite Hid in Hid'. injection Hid' as <-. reflexivity.
Qed.

Lemma startup_failure_modes_witness :
  execute cfg0 env_no_info 3 =
    (mkWorld 1 0 1 0 None
       [EvStartSerial "/dev/ttyACM0" true; EvSetScheduleDefault; EvGetDeviceInfo;
        EvGetInstantaneousDemand], inl AttributeError) /\
  main_exit (snd (execute cfg0 env_broker_down 3)) = Some 1.
Proof.
  split.
  - apply (proj1 (proj2 (proj2 (startup_failure_modes cfg0 env_no_info 3
             eq_refl eq_refl)))).
    now left.
  - exact (proj1 (startup_failure_modes cfg0 env_broker_down 3 eq_refl eq_refl)).
Defined.

(** X. Every run talks only to the configured endpoints: every
    [start_serial] (the first one and every reopening) uses the configured
    serial port, every sleep the configured interval, and the broker
    connect the configured host and port. *)
Theorem run_uses_config (cfg : Config) (env : Env) (fuel : nat) :
  Forall (uses_config cfg) (trace (fst (execute cfg env fuel))).
Proof.
  apply execute_forall; cbv zeta.
  - intro u. unfold poll_once. solve_emits; cbn; auto.
  - exact I.
  - exact I.
  - unfold setup_head. forall_list ltac:(cbn; auto).
  - unfold setup_mid. forall_list ltac:(cbn; auto).
  - reflexivity.
  - split; reflexivity.
  - intros di idr _ _. unfold setup_tail. forall_list ltac:(cbn; auto).
Qed.

(** X. Every publish of a run, and its last will, goes to a topic under
    the one prefix [<discovery_prefix>/sensor/flying_emu-<meter_mac>] of
    its meter. *)
Theorem topics_under_prefix (cfg : Config) (env : Env) (fuel : nat) :
  Forall (under_prefix (run_prefix cfg env)) (trace (fst (execute cfg env fuel))).
Proof.
  apply execute_forall; cbv zeta; generalize (run_prefix cfg env); intro p.
  - intro u. unfold poll_once. solve_emits; cbn [under_prefix];
    first [exact I | eexists; reflexivity].
  - exact I.
  - eexists. reflexivity.
  - unfold setup_head. forall_list ltac:(first [exact I | eexists; reflexivity]).
  - unfold setup_mid. forall_list ltac:(first [exact I | eexists; reflexivity]).
  - exact I.
  - exact I.
  - intros di idr _ _. unfold setup_tail.
    forall_list ltac:(first [exact I | eexists; reflexivity]).
Qed.

Ltac not_state_topic :=
  cbn [reading_of_answer]; split;
  let Ht := fresh "Ht" in
  intro Ht; exfalso; revert Ht; apply topic_neq; discriminate.

(** X. Every value published on a state topic is the conversion
    [Decimal(raw) * multiplier / divisor] of a genuine device answer of the
    matching kind (one with a timestamp), in the payload
    [{"reading": value}]: a current summation reading on the current
    summation topic, a demand reading on the demand topic; no other publish
    of the run goes to a state topic. *)
Theorem published_readings_are_conversions (cfg : Config) (env : Env) (fuel : nat) :
  Forall (reading_of_answer env (run_prefix cfg env))
    (trace (fst (execute cfg env fuel))).
Proof.
  apply execute_forall; cbv zeta; generalize (run_prefix cfg env); intro p.
  - apply poll_once_readings.
  - exact I.
  - not_state_topic.
  - unfold setup_head. forall_list ltac:(first [exact I | not_state_topic]).
  - unfold setup_mid. forall_list ltac:(first [exact I | not_state_topic]).
  - exact I.
  - exact I.
  - intros di idr _ _. unfold setup_tail.
    forall_list ltac:(first [exact I | not_state_topic]).
Qed.

(** X. Before any publish to a state topic, the run has published, retained,
    a discovery descriptor whose ["state_topic"] is that very topic and
    whose ["availability_topic"] names the topic of the registered last will
    "offline" and of the "online" publish, both also earlier in the run. *)
Theorem discovery_names_used_topics (cfg : Config) (env : Env) (fuel : nat) :
  let tr := trace (fst (execute cfg env fuel)) in
  let p := run_prefix cfg env in
  forall pre t pl r post, tr = pre ++ EvPublish t pl r :: post ->
  t = cs_state_topic p \/ t = id_state_topic p ->
  exists c j wt, In (EvPublish c (PJson j) true) pre /\
    json_field "state_topic" j = Some (JStr t) /\
    json_field "availability_topic" j = Some (JStr wt) /\
    In (EvWillSet wt (PStr "offline") true) pre /\
    In (EvPublish wt (PStr "online") true) pre.
Proof.
  cbv zeta. intros pre t pl r post Heq Ht.
  assert (Hin : In (EvPublish t pl r) (trace (fst (execute cfg env fuel))))
    by (rewrite Heq; apply in_elt).
  destruct (execute_cases cfg env fuel)
    as [(di & idr & Hs & Hdi & Hid & Hc & E) | [(Hs & E) | [(Hs & Hn & E) |
        (di & idr & Hs & Hdi & Hid & Hc & E)]]];
    [| rewrite E in Hin; cbn in Hin; repeat destruct Hin as [Hin|Hin];
       try discriminate; contradiction ..].
  assert (Hp : run_prefix cfg env = mk_prefix cfg (meter_mac idr))
    by (unfold run_prefix; now rewrite Hid).
  rewrite Hp in Ht. cbv zeta in E. set (p := mk_prefix cfg (meter_mac idr)) in *.
  set (w0 := mkWorld 1 0 1 0 (Some p)
               (setup_head cfg p ++ setup_mid cfg p ++ setup_tail (meter_mac idr) p di))
    in *.
  destruct (polling_loop_forall (fun _ => True) cfg env p I I
              (fun u => ltac:(unfold poll_once; solve_emits; exact I)) fuel 0 w0 eq_refl)
    as (L & HL & _).
  rewrite E, HL in Heq. cbn [trace w0] in Heq.
  destruct (prefix_of_first
              (fun x => exists t' pl' r', x = EvPublish t' pl' r' /\
                          (t' = cs_state_topic p \/ t' = id_state_topic p))
              _ _ _ _ _ (eq_sym Heq) (ex_intro _ t (ex_intro _ pl (ex_intro _ r
                          (conj eq_refl Ht)))))
    as (pre2 & -> & _).
  { unfold setup_head, setup_mid, setup_tail. cbn [app].
    forall_list ltac:(intros (t' & pl' & r' & Hx & Ht'); try discriminate Hx;
      injection Hx as <- _ _; destruct Ht' as [Ht'|Ht']; revert Ht';
      apply topic_neq; discriminate). }
  destruct Ht as [-> | ->].
  - exists (cs_config_topic p), (current_summation_discovery_config (meter_mac idr) p di), (availability_topic p).
    repeat split; try reflexivity; apply in_or_app; left;
      unfold setup_head, setup_mid, setup_tail; cbn; intuition.
  - exists (id_config_topic p), (instantaneous_demand_discovery_config (meter_mac idr) p di), (availability_topic p).
    repeat split; try reflexivity; apply in_or_app; left;
      unfold setup_head, setup_mid, setup_tail; cbn; intuition.
Qed.

Lemma discovery_names_used_topics_witness :
  let tr := trace (fst (execute cfg0 env_good 1)) in
  exists c j wt, In (EvPublish c (PJson j) true) (firstn 13 tr) /\
    json_field "state_topic" j = Some (JStr (cs_state_topic prefix0)) /\
    json_field "availability_topic" j = Some (JStr wt) /\
    In (EvWillSet wt (PStr "offline") true) (firstn 13 tr) /\
    In (EvPublish wt (PStr "online") true) (firstn 13 tr).
Proof.
  exact (discovery_names_used_topics cfg0 env_good 1
           (firstn 13 (trace (fst (execute cfg0 env_good 1))))
           (cs_state_topic prefix0)
           (PJson (JObj [("reading"%string, JFloat (mkDec false 12345 (-3)))])) true
           (skipn 14 (trace (fst (execute cfg0 env_good 1))))
           ltac:(vm_compute; reflexivity) (or_introl eq_refl)).
Defined.

